(** * Notion site proxy worker: configuration resolution and request routing

    A shallow embedding of [src/worker/worker.js]: the per-domain
    configuration resolver ([getDomainConfig], [processConfigurationObject]),
    the sitemap generator, the CORS preflight handler and the dispatcher
    [fetchAndApply] with its redirect handlers.

    Conventions.
    - JS strings are [string]; a template literal is a concatenation.
    - A plain object is the list of its own properties in enumeration
      order; property reads fall back on [Object.prototype].
    - [url.pathname] is the path as the URL parser delivers it.
    - A handler that calls the upstream origin is represented by the
      outbound call it issues (constructors of [outcome]); what the
      upstream answers is not part of the worker's code.
    - [Response.redirect(u, 301)] is represented with the string [u] it is
      given as its [Location].
    - What a handler answers once the upstream has replied is a function
      of that reply ([fetched]); the runtime's [HTMLRewriter] and the
      browser's URL parser are parameters.
    - [JSON.parse] is a parameter; the module-level cache and the
      key-value namespace are threaded as an explicit [world]. *)

From Stdlib Require Import Ascii String ZArith Lia.
From stdpp Require Import gmap strings list sorting.

Local Open Scope Z_scope.

(** ** Strings *)

Module Str.

Definition dquote : string := String "034"%char "".
Definition newline : string := String "010"%char "".

(** [s.startsWith(p)] *)
Definition startsWith (s p : string) : bool := String.prefix p s.

(** [s.endsWith(p)] *)
Definition endsWith (s p : string) : bool :=
  String.prefix (String.rev p) (String.rev s).

(** [s.includes(p)] *)
Fixpoint includes (s p : string) : bool :=
  String.prefix p s ||
  match s with
  | "" => false
  | String _ s' => includes s' p
  end.

(** [s.slice(1)] *)
Definition slice1 (s : string) : string :=
  match s with
  | "" => ""
  | String _ r => r
  end.

(** [l.join(sep)] *)
Definition join (sep : string) (l : list string) : string :=
  String.concat sep l.

(** ASCII lower-casing, as used by case-insensitive header names and by
    the [i] flag of a regular expression over ASCII classes. *)
Definition lower_ascii (c : ascii) : ascii :=
  let n := N_of_ascii c in
  if ((65 <=? n) && (n <=? 90))%N then ascii_of_N (n + 32) else c.

Fixpoint lower (s : string) : string :=
  match s with
  | "" => ""
  | String c r => String (lower_ascii c) (lower r)
  end.

Fixpoint forall_chars (p : ascii → bool) (s : string) : bool :=
  match s with
  | "" => true
  | String c r => p c && forall_chars p r
  end.

End Str.

(** [hostname.replace(/^www\./, '')] *)
Definition strip_www (hostname : string) : string :=
  match hostname with
  | String "w"%char (String "w"%char (String "w"%char (String "."%char r))) => r
  | _ => hostname
  end.

(** ** JSON scalars and plain objects *)

(** The values a page id can take in a parsed configuration: a string, or
    a non-string scalar.  (Numbers, arrays and nested objects in the place
    of a page id are not represented.) *)
Inductive jsval :=
  | JNull
  | JBool (b : bool)
  | JStr (s : string).

Global Instance jsval_eq_dec : EqDecision jsval.
Proof. solve_decision. Defined.

(** [if (v)] *)
Definition truthy (v : jsval) : bool :=
  match v with
  | JNull => false
  | JBool b => b
  | JStr s => negb (String.eqb s "")
  end.

(** [`${v}`] *)
Definition to_text (v : jsval) : string :=
  match v with
  | JNull => "null"
  | JBool true => "true"
  | JBool false => "false"
  | JStr s => s
  end.

(** A plain object is the list of its own properties in the order in which
    [Object.entries] enumerates them: array-index keys in ascending numeric
    order first, then every other key in creation order. *)
Definition jsobj : Type := list (string * jsval).

Definition digit_value (c : ascii) : option N :=
  let n := N_of_ascii c in
  if ((48 <=? n) && (n <=? 57))%N then Some (n - 48)%N else None.

Fixpoint decimal_value (acc : N) (s : string) : option N :=
  match s with
  | "" => Some acc
  | String c r =>
      match digit_value c with
      | Some d => decimal_value (10 * acc + d)%N r
      | None => None
      end
  end.

(** A key is an array index when it is the canonical decimal form of an
    integer below 2^32 - 1. *)
Definition array_index (k : string) : option N :=
  match k with
  | "" => None
  | String "0"%char "" => Some 0%N
  | String "0"%char _ => None
  | _ =>
      match decimal_value 0 k with
      | Some n => if (n <? 4294967295)%N then Some n else None
      | None => None
      end
  end.

Definition key_precedes (k k' : string) : bool :=
  match array_index k, array_index k' with
  | Some i, Some j => (i <? j)%N
  | Some _, None => true
  | None, _ => false
  end.

(** Own-property lookup. *)
Fixpoint own (o : jsobj) (k : string) : option jsval :=
  match o with
  | [] => None
  | (k', v) :: o' => if String.eqb k k' then Some v else own o' k
  end.

Fixpoint overwrite (k : string) (v : jsval) (o : jsobj) : jsobj :=
  match o with
  | [] => []
  | (k', v') :: o' =>
      if String.eqb k k' then (k, v) :: o' else (k', v') :: overwrite k v o'
  end.

Fixpoint place (k : string) (v : jsval) (o : jsobj) : jsobj :=
  match o with
  | [] => [(k, v)]
  | (k', v') :: o' =>
      if key_precedes k k' then (k, v) :: o else (k', v') :: place k v o'
  end.

(** [CreateDataProperty]: an existing key keeps its position and takes the
    new value; a new key is placed by the enumeration order. *)
Definition CreateDataProperty (o : jsobj) (k : string) (v : jsval) : jsobj :=
  match own o k with
  | Some _ => overwrite k v o
  | None => place k v o
  end.

(** The object that [JSON.parse] (or an object literal) builds from the
    members [{ k1: v1, k2: v2, ... }] in the order they are written. *)
Definition JSON_object (members : list (string * jsval)) : jsobj :=
  foldl (λ o kv, CreateDataProperty o kv.1 kv.2) [] members.

(** The names every plain object inherits from [Object.prototype]. *)
Definition Object_prototype_keys : list string :=
  [ "constructor"; "__defineGetter__"; "__defineSetter__"; "hasOwnProperty";
    "__lookupGetter__"; "__lookupSetter__"; "isPrototypeOf";
    "propertyIsEnumerable"; "toString"; "valueOf"; "__proto__";
    "toLocaleString" ].

(** The result of the property read [o[k]]. *)
Inductive property :=
  | Own (v : jsval)
  | Inherited (name : string)
  | Undefined.

Definition Get (o : jsobj) (k : string) : property :=
  match own o k with
  | Some v => Own v
  | None =>
      if bool_decide (k ∈ Object_prototype_keys) then Inherited k
      else Undefined
  end.

Definition property_truthy (p : property) : bool :=
  match p with
  | Own v => truthy v
  | Inherited _ => true
  | Undefined => false
  end.

(** [`${p}`]; inherited members are native functions, [__proto__] is the
    prototype object itself (V8 wording). *)
Definition property_text (p : property) : string :=
  match p with
  | Own v => to_text v
  | Inherited name =>
      if String.eqb name "__proto__" then "[object Object]"
      else if String.eqb name "constructor"
           then "function Object() { [native code] }"
           else "function " +:+ name +:+ "() { [native code] }"
  | Undefined => "undefined"
  end.

(** The assignment [m[k] = s] of a string into an object that is used as a
    map from page id to slug.  Assigning a string to [__proto__] runs the
    inherited setter, which ignores it: no own property is created. *)
Definition assign (m : gmap string string) (k s : string) : gmap string string :=
  if String.eqb k "__proto__" then m else <[k := s]> m.

(** ** Domain configuration *)

(** What the worker reads of the object parsed from the configuration
    store.  [raw_SLUG_TO_PAGE = None] is a configuration without that
    member. *)
Record raw_config := {
  raw_SLUG_TO_PAGE : option jsobj;
  raw_PAGE_TITLE : option string;
  raw_PAGE_DESCRIPTION : option string;
  raw_GOOGLE_FONT : option string;
  raw_CUSTOM_SCRIPT : option string
}.

(** The configuration object after [config.MY_DOMAIN = cleanHostname] and
    [processConfigurationObject]. *)
Record config := {
  MY_DOMAIN : string;
  SLUG_TO_PAGE : option jsobj;
  PAGE_TITLE : option string;
  PAGE_DESCRIPTION : option string;
  GOOGLE_FONT : option string;
  CUSTOM_SCRIPT : option string;
  PAGE_TO_SLUG : gmap string string;
  slugs : list string;
  pages : list string
}.

(** The three fields that the [forEach] of [processConfigurationObject]
    grows. *)
Record derived := {
  d_PAGE_TO_SLUG : gmap string string;
  d_slugs : list string;
  d_pages : list string
}.

Definition derived_init : derived :=
  {| d_PAGE_TO_SLUG := ∅; d_slugs := []; d_pages := [] |}.

(** One call of the [forEach] callback on the entry [[slug, pageId]]. *)
Definition visit_entry (d : derived) (e : string * jsval) : derived :=
  match e.2 with
  | JStr pageId =>
      if truthy (JStr pageId) then
        {| d_PAGE_TO_SLUG := assign (d_PAGE_TO_SLUG d) pageId e.1;
           d_slugs := d_slugs d ++ [e.1];
           d_pages := d_pages d ++ [pageId] |}
      else d
  | _ => d
  end.

(** [processConfigurationObject(config)], with the hostname that the caller
    has just stored in [config.MY_DOMAIN]. *)
Definition processConfigurationObject (domain : string) (raw : raw_config) : config :=
  let d := foldl visit_entry derived_init (default [] (raw_SLUG_TO_PAGE raw)) in
  {| MY_DOMAIN := domain;
     SLUG_TO_PAGE := raw_SLUG_TO_PAGE raw;
     PAGE_TITLE := raw_PAGE_TITLE raw;
     PAGE_DESCRIPTION := raw_PAGE_DESCRIPTION raw;
     GOOGLE_FONT := raw_GOOGLE_FONT raw;
     CUSTOM_SCRIPT := raw_CUSTOM_SCRIPT raw;
     PAGE_TO_SLUG := d_PAGE_TO_SLUG d;
     slugs := d_slugs d;
     pages := d_pages d |}.

(** ** Responses and requests *)

Record response := {
  status : Z;
  headers : list (string * string);
  body : option string
}.

Global Instance response_eq_dec : EqDecision response.
Proof. solve_decision. Defined.

(** [Response.redirect(url, code)], with the text it is given as its
    [Location]; the runtime sends the URL that this text parses to. *)
Definition Response_redirect (url : string) (code : Z) : response :=
  {| status := code; headers := [("Location", url)]; body := None |}.

Record url := {
  protocol : string;
  hostname : string;
  pathname : string;
  search : string
}.

(** [url.toString()] *)
Definition href (u : url) : string :=
  protocol u +:+ "//" +:+ hostname u +:+ pathname u +:+ search u.

Record request := {
  method : string;
  request_url : url;
  request_headers : list (string * string);
  request_body : option string
}.

(** [headers.get(name)]: names compare without case, several values are
    joined. *)
Definition headers_get (h : list (string * string)) (name : string) : option string :=
  match List.filter (λ kv, String.eqb (Str.lower kv.1) (Str.lower name)) h with
  | [] => None
  | vs => Some (Str.join ", " (map snd vs))
  end.

(** Truthiness of the [string | null] that [headers.get] returns. *)
Definition header_truthy (v : option string) : bool :=
  match v with
  | Some s => negb (String.eqb s "")
  | None => false
  end.

(** ** Sitemap and robots *)

Definition sitemap_loc (domain slug : string) : string :=
  if String.eqb slug "" then "https://" +:+ domain +:+ "/"
  else "https://" +:+ domain +:+ "/" +:+ slug.

Definition sitemap_entry (domain slug : string) : string :=
  "<url><loc>" +:+ sitemap_loc domain slug +:+
  "</loc><changefreq>weekly</changefreq><priority>0.8</priority></url>".

Definition sitemap_head : string :=
  "<?xml version=" +:+ Str.dquote +:+ "1.0" +:+ Str.dquote +:+
  " encoding=" +:+ Str.dquote +:+ "UTF-8" +:+ Str.dquote +:+ "?>" +:+
  Str.newline +:+
  "<urlset xmlns=" +:+ Str.dquote +:+
  "http://www.sitemaps.org/schemas/sitemap/0.9" +:+ Str.dquote +:+ ">" +:+
  Str.newline.

Definition sitemap_foot : string := Str.newline +:+ "</urlset>".

(** [generateSitemap({ MY_DOMAIN, slugs })].  The [filter] that drops
    [undefined] keeps every element of a list of strings. *)
Definition generateSitemap (c : config) : string :=
  let urls := map (sitemap_entry (MY_DOMAIN c)) (slugs c) in
  sitemap_head +:+ Str.join Str.newline urls +:+ sitemap_foot.

Definition generateSitemapResponse (c : config) : response :=
  {| status := 200;
     headers := [("Content-Type", "application/xml")];
     body := Some (generateSitemap c) |}.

Definition generateRobotsTxt (c : config) : response :=
  {| status := 200;
     headers := [("Content-Type", "text/plain")];
     body := Some ("User-agent: *" +:+ Str.newline +:+ "Allow: /" +:+
                   Str.newline +:+ Str.newline +:+
                   "Sitemap: https://" +:+ MY_DOMAIN c +:+ "/sitemap.xml") |}.

(** ** CORS preflight *)

Definition corsHeaders : list (string * string) :=
  [ ("Access-Control-Allow-Origin", "*");
    ("Access-Control-Allow-Methods", "GET, HEAD, POST, PUT, OPTIONS");
    ("Access-Control-Allow-Headers", "Content-Type, Authorization") ].

Definition handleCorsPreflightRequest (r : request) : response :=
  let origin := headers_get (request_headers r) "Origin" in
  let method := headers_get (request_headers r) "Access-Control-Request-Method" in
  let headers := headers_get (request_headers r) "Access-Control-Request-Headers" in
  if header_truthy origin && header_truthy method && header_truthy headers then
    {| status := 204; headers := corsHeaders; body := None |}
  else
    {| status := 405;
       headers := [("Allow", "GET, HEAD, POST, PUT, OPTIONS")];
       body := None |}.

(** ** Handlers that call the upstream origin *)

Definition MY_NOTION_USERNAME : string := "faeton".

(** The second argument of [fetch].  [init_body = None] is an init object
    without a [body] member; [Some b] carries the body [b] of the inbound
    request ([Some None] when that body is [null]). *)
Record request_init := {
  init_method : string;
  init_headers : list (string * string);
  init_body : option (option string)
}.

(** What [fetchAndApply] does with a request: answer it, or hand it to one
    of the three handlers that call the upstream, with the arguments of the
    [fetch] the handler issues. *)
Inductive outcome :=
  | Respond (r : response)
  | JavaScriptAssets (target : string)
  | ApiRequests (target : string) (init : request_init)
  | HtmlContent (target : string) (init : request_init).

(** The [fetch] of [handleApiRequests(notionUrl, request)]. *)
Definition handleApiRequests (notionUrl : url) (r : request) : outcome :=
  let requestInit :=
    {| init_method := "POST";
       init_headers :=
         [ ("Content-Type", "application/json;charset=UTF-8");
           ("User-Agent",
            "Mozilla/5.0 (Macintosh; Intel Mac OS X 10_15_7) AppleWebKit/537.36 (KHTML, like Gecko) Chrome/91.0.4472.124 Safari/537.36") ];
       init_body := None |} in
  let requestInit :=
    if negb (Str.includes (pathname notionUrl) "/api/v3/getPublicPageData")
    then {| init_method := init_method requestInit;
            init_headers := init_headers requestInit;
            init_body := Some (request_body r) |}
    else requestInit in
  ApiRequests (href notionUrl) requestInit.

(** The [fetch] of [handleHtmlContent(notionUrl, request, config)]. *)
Definition handleHtmlContent (notionUrl : url) (r : request) : outcome :=
  HtmlContent (href notionUrl)
    {| init_method := method r;
       init_headers := request_headers r;
       init_body := Some (request_body r) |}.

(** The [fetch] of [handleJavaScriptAssets(notionUrl, config)]. *)
Definition handleJavaScriptAssets (notionUrl : url) : outcome :=
  JavaScriptAssets (href notionUrl).

(** ** Redirect handlers *)

Inductive thrown :=
  | TypeError (message : string).

(** [handleSlugRedirection(url, config)]; reading a property of a missing
    [SLUG_TO_PAGE] throws. *)
Definition handleSlugRedirection (u : url) (c : config) : thrown + option response :=
  let slug := Str.slice1 (pathname u) in
  match SLUG_TO_PAGE c with
  | None =>
      inl (TypeError ("Cannot read properties of undefined (reading '" +:+
                      slug +:+ "')"))
  | Some o =>
      let pageId := Get o slug in
      if property_truthy pageId then
        let redirectUrl :=
          if String.eqb slug "" then "https://" +:+ MY_DOMAIN c +:+ "/"
          else "https://" +:+ MY_DOMAIN c +:+ "/" +:+ property_text pageId in
        inr (Some (Response_redirect redirectUrl 301))
      else inr None
  end.

Definition is_hex_digit (c : ascii) : bool :=
  let n := N_of_ascii c in
  (((48 <=? n) && (n <=? 57)) || ((97 <=? n) && (n <=? 102)) ||
   ((65 <=? n) && (n <=? 70)))%N.

(** [/^[0-9a-f]{32}$/i.test(s)] *)
Definition notionPageIdPattern_test (s : string) : bool :=
  (String.length s =? 32)%nat && Str.forall_chars is_hex_digit s.

(** [handleUnknownPageRedirection(url, config)] *)
Definition handleUnknownPageRedirection (u : url) (c : config) : option response :=
  let pathSegment := Str.slice1 (pathname u) in
  if notionPageIdPattern_test pathSegment &&
     negb (bool_decide (pathSegment ∈ pages c))
  then Some (Response_redirect ("https://" +:+ MY_DOMAIN c +:+ "/") 301)
  else None.

(** ** The dispatcher *)

(** The body of [fetchAndApply] after a configuration has been resolved. *)
Definition dispatch (r : request) (c : config) : thrown + outcome :=
  let u := request_url r in
  if String.eqb (method r) "OPTIONS" then
    inr (Respond (handleCorsPreflightRequest r))
  else
    let notionUrl :=
      {| protocol := protocol u;
         hostname := MY_NOTION_USERNAME +:+ ".notion.site";
         pathname := pathname u;
         search := search u |} in
    if String.eqb (pathname u) "/robots.txt" then
      inr (Respond (generateRobotsTxt c))
    else if String.eqb (pathname u) "/sitemap.xml" then
      inr (Respond (generateSitemapResponse c))
    else if String.eqb (pathname u) "/health" || String.eqb (pathname u) "/_health" then
      inr (Respond {| status := 200;
                      headers := [("Content-Type", "text/plain")];
                      body := Some "OK" |})
    else if Str.startsWith (pathname u) "/app" && Str.endsWith (pathname u) ".js" then
      inr (handleJavaScriptAssets notionUrl)
    else if Str.startsWith (pathname u) "/api" then
      inr (handleApiRequests notionUrl r)
    else
      match handleSlugRedirection u c with
      | inl e => inl e
      | inr (Some slugRedirectResponse) => inr (Respond slugRedirectResponse)
      | inr None =>
          match handleUnknownPageRedirection u c with
          | Some unknownPageRedirectResponse =>
              inr (Respond unknownPageRedirectResponse)
          | None => inr (handleHtmlContent notionUrl r)
          end
      end.

(** ** Configuration resolution *)

(** The process-wide state: the key-value namespace [DOMAINS_CONFIG] and the
    module-level [domainConfigCache].  A value that [getDomainConfig]
    caches and returns is an [option config], as its caller can tell it:
    [Some c] is a truthy value, of which the worker reads the members [c];
    [None] is a falsy one ([null], or a stored [0], [false] or empty
    string), of which the caller tests nothing but that. *)
Record world := {
  DOMAINS_CONFIG : gmap string string;
  domainConfigCache : gmap string (option config)
}.

(** A JSON value that is no object and not [null]; a number is the bit
    pattern of its IEEE 754 double. *)
Inductive primitive :=
  | PBool (b : bool)
  | PNumber (bits : Z)
  | PString (s : string).

(** Truthiness of a number: every double but [0], [-0] and [NaN]. *)
Definition number_truthy (bits : Z) : bool :=
  let magnitude := Z.land bits 0x7fffffffffffffff in
  negb (magnitude =? 0) && (magnitude <=? 0x7ff0000000000000).

Definition primitive_truthy (p : primitive) : bool :=
  match p with
  | PBool b => b
  | PNumber bits => number_truthy bits
  | PString s => negb (String.eqb s "")
  end.

(** What the worker reads of a truthy primitive that it takes for a
    configuration.  The assignments [config.MY_DOMAIN = ...],
    [config.PAGE_TO_SLUG = {}], ... to a primitive are dropped (the script
    is not in strict mode), so every member reads [undefined]: a template
    literal writes [undefined] for [MY_DOMAIN], and the sitemap and the
    page script take the defaults for [slugs], [pages] and
    [PAGE_TO_SLUG]. *)
Definition primitive_config : config :=
  {| MY_DOMAIN := "undefined";
     SLUG_TO_PAGE := None;
     PAGE_TITLE := None;
     PAGE_DESCRIPTION := None;
     GOOGLE_FONT := None;
     CUSTOM_SCRIPT := None;
     PAGE_TO_SLUG := ∅;
     slugs := [];
     pages := [] |}.

(** [processConfigurationObject(config)] for a primitive, which it returns
    as it is. *)
Definition processed_primitive (p : primitive) : option config :=
  if primitive_truthy p then Some primitive_config else None.

(** The result of [JSON.parse] on stored text: a syntax error, the value
    [null], a primitive, or an object (an array is an object on which the
    worker finds none of the members it reads). *)
Inductive parsed :=
  | SyntaxError
  | ParsedNull
  | ParsedPrimitive (p : primitive)
  | ParsedObject (raw : raw_config).

(** [const manualConfig = undefined;] *)
Definition manualConfig : option raw_config := None.

Section Worker.

(** [JSON.parse], provided by the runtime. *)
Variable JSON_parse : string → parsed.

(** [getDomainConfig(hostname)]: the value returned and the state
    afterwards.  [null.MY_DOMAIN = ...] throws, which the [catch] turns
    into [null]. *)
Definition getDomainConfig (hostname : string) (w : world) : option config * world :=
  let cleanHostname := strip_www hostname in
  match manualConfig with
  | Some m => (Some (processConfigurationObject cleanHostname m), w)
  | None =>
      match domainConfigCache w !! cleanHostname with
      | Some cached => (cached, w)
      | None =>
          match DOMAINS_CONFIG w !! cleanHostname with
          | None => (None, w)
          | Some domainConfigData =>
              if String.eqb domainConfigData "" then (None, w)
              else
                match JSON_parse domainConfigData with
                | SyntaxError => (None, w)
                | ParsedNull => (None, w)
                | ParsedPrimitive p =>
                    let processedConfig := processed_primitive p in
                    (processedConfig,
                     {| DOMAINS_CONFIG := DOMAINS_CONFIG w;
                        domainConfigCache :=
                          <[cleanHostname := processedConfig]>
                            (domainConfigCache w) |})
                | ParsedObject raw =>
                    let processedConfig :=
                      Some (processConfigurationObject cleanHostname raw) in
                    (processedConfig,
                     {| DOMAINS_CONFIG := DOMAINS_CONFIG w;
                        domainConfigCache :=
                          <[cleanHostname := processedConfig]>
                            (domainConfigCache w) |})
                end
          end
      end
  end.

(** [fetchAndApply(request)] *)
Definition fetchAndApply (r : request) (w : world) : outcome * world :=
  let hostname := strip_www (hostname (request_url r)) in
  let '(resolved, w') := getDomainConfig hostname w in
  match resolved with
  | None =>
      (Respond {| status := 404;
                  headers := [("Content-Type", "text/plain")];
                  body := Some ("Domain " +:+ Str.dquote +:+ hostname +:+
                                Str.dquote +:+ " not configured") |},
       w')
  | Some c =>
      match dispatch r c with
      | inr o => (o, w')
      | inl (TypeError message) =>
          (Respond {| status := 500;
                      headers := [("Content-Type", "text/plain")];
                      body := Some ("Internal Server Error: " +:+ message) |},
           w')
      end
  end.

End Worker.

(** ** Answers built from what the upstream returns *)

(** What a [fetch] yields: a rejection, or the upstream's response. *)
Inductive fetched :=
  | FetchError
  | Fetched (resp : response).

(** [response.ok] *)
Definition response_ok (resp : response) : bool :=
  (200 <=? status resp) && (status resp <=? 299).

(** [headers.delete(name)] *)
Definition headers_delete (h : list (string * string)) (name : string) : list (string * string) :=
  List.filter (λ kv, negb (String.eqb (Str.lower kv.1) (Str.lower name))) h.

(** [new Response(text, { status: 500 })]: a text body without a content
    type of its own gets the default one. *)
Definition failure_response (text : string) : response :=
  {| status := 500;
     headers := [("content-type", "text/plain;charset=UTF-8")];
     body := Some text |}.

(** The statuses with which a response has no body. *)
Definition null_body_status (code : Z) : bool :=
  (code =? 101) || (code =? 204) || (code =? 205) || (code =? 304).

(** [new Response(body, { status, headers })] for a status from 200 to 599
    and a [body] that is the stream of another response, or [null]; [None]
    is the [TypeError] thrown for a stream given with a status that has no
    body. *)
Definition Response_new (b : option string) (code : Z) (h : list (string * string)) :
    option response :=
  match b with
  | Some _ =>
      if null_body_status code then None
      else Some {| status := code; headers := h; body := b |}
  | None => Some {| status := code; headers := h; body := None |}
  end.

(** [new Response(text, { status, headers })] for a status from 200 to 599
    and a body that is a string.  With a status that has no body, the
    worker's runtime takes the empty string for no body and throws for any
    other text. *)
Definition Response_new_text (text : string) (code : Z) (h : list (string * string)) :
    option response :=
  if null_body_status code then
    if String.eqb text "" then Some {| status := code; headers := h; body := None |}
    else None
  else Some {| status := code; headers := h; body := Some text |}.

Section HtmlContent.

(** [applyHtmlEnhancements(response, config)]: the runtime's [HTMLRewriter]
    applied to the response. *)
Variable applyHtmlEnhancements : response → config → response.

(** What [handleHtmlContent] returns once its [fetch] has settled. *)
Definition handleHtmlContent_response (c : config) (up : fetched) : response :=
  match up with
  | FetchError => failure_response "Failed to load page content"
  | Fetched resp =>
      if negb (response_ok resp) then
        failure_response "Failed to load page content"
      else
        match Response_new (body resp) (status resp) (headers resp) with
        | Some enhancedResponse =>
            let enhancedResponse :=
              {| status := status enhancedResponse;
                 headers :=
                   headers_delete
                     (headers_delete (headers enhancedResponse)
                        "Content-Security-Policy")
                     "X-Content-Security-Policy";
                 body := body enhancedResponse |} in
            applyHtmlEnhancements enhancedResponse c
        | None => failure_response "Failed to load page content"
        end
  end.

End HtmlContent.

(** The replacement text of [String.prototype.replace] for a pattern
    without groups: [$$] stands for a dollar sign, [$&] for the matched
    text, [$`] for the text before the match and [$'] for the text after
    it; any other [$] stands for itself. *)
Fixpoint expand_replacement (rep matched before after : string) : string :=
  match rep with
  | "" => ""
  | String a tail =>
      if Ascii.eqb a "$" then
        match tail with
        | String b rest =>
            if Ascii.eqb b "$" then
              String "$" (expand_replacement rest matched before after)
            else if Ascii.eqb b "&" then
              matched +:+ expand_replacement rest matched before after
            else if Ascii.eqb b "`" then
              before +:+ expand_replacement rest matched before after
            else if Ascii.eqb b "'" then
              after +:+ expand_replacement rest matched before after
            else String a (expand_replacement tail matched before after)
        | "" => String a ""
        end
      else String a (expand_replacement tail matched before after)
  end.

(** [s.slice(n)] for [n] within the string. *)
Fixpoint drop_chars (n : nat) (s : string) : string :=
  match n, s with
  | O, _ => s
  | S n', String _ s' => drop_chars n' s'
  | S _, "" => ""
  end.

(** [text.replace(/pat/g, rep)] for a pattern [pat] that is a non-empty
    literal: the matches are found from left to right and do not overlap.
    [before] is the part of the text already passed, [skip] the number of
    characters of the current match still to pass. *)
Fixpoint replace_from (pat rep before : string) (skip : nat) (s : string) : string :=
  match s with
  | "" => ""
  | String a s' =>
      match skip with
      | S k => replace_from pat rep (before +:+ String a "") k s'
      | O =>
          if String.prefix pat s then
            expand_replacement rep pat before (drop_chars (String.length pat) s)
            +:+ replace_from pat rep (before +:+ String a "")
                  (String.length pat - 1) s'
          else String a (replace_from pat rep (before +:+ String a "") 0 s')
      end
  end.

Definition replace_all (pat rep s : string) : string :=
  replace_from pat rep "" 0 s.

(** The three replacements of [handleJavaScriptAssets]. *)
Definition rewrite_asset (domain body : string) : string :=
  replace_all (MY_NOTION_USERNAME +:+ ".notion.site") domain
    (replace_all "notion.so" domain
       (replace_all "www.notion.so" domain body)).

(** What [handleJavaScriptAssets] returns once its [fetch] has settled;
    [response.text()] of a response without body is the empty text. *)
Definition handleJavaScriptAssets_response (c : config) (up : fetched) : response :=
  match up with
  | FetchError => failure_response "Failed to load JavaScript asset"
  | Fetched resp =>
      if negb (response_ok resp) then
        failure_response "Failed to load JavaScript asset"
      else
        let body := rewrite_asset (MY_DOMAIN c) (default "" (body resp)) in
        match Response_new_text body (status resp)
                (corsHeaders ++
                 [ ("Content-Type", "application/javascript");
                   ("Cache-Control", "public, max-age=31536000") ]) with
        | Some response => response
        | None => failure_response "Failed to load JavaScript asset"
        end
  end.

(** ** Meta tags *)

(** An element as the [HTMLRewriter] hands it to a handler: its tag name
    and attributes, and what the handler has asked for so far. *)
Record element := {
  tagName : string;
  attributes : gmap string string;
  innerContent : option string;
  removed : bool
}.

(** [element.getAttribute(name)] *)
Definition getAttribute (e : element) (name : string) : option string :=
  attributes e !! name.

(** [element.setAttribute(name, value)] *)
Definition setAttribute (e : element) (name value : string) : element :=
  {| tagName := tagName e;
     attributes := <[name := value]> (attributes e);
     innerContent := innerContent e;
     removed := removed e |}.

(** [element.setInnerContent(text)] *)
Definition setInnerContent (e : element) (text : string) : element :=
  {| tagName := tagName e;
     attributes := attributes e;
     innerContent := Some text;
     removed := removed e |}.

(** [element.remove()] *)
Definition remove (e : element) : element :=
  {| tagName := tagName e;
     attributes := attributes e;
     innerContent := innerContent e;
     removed := true |}.

(** [l.includes(v)] for [v] a string or [null]. *)
Definition includes_value (l : list string) (v : option string) : bool :=
  match v with
  | Some s => bool_decide (s ∈ l)
  | None => false
  end.

(** [MetaTagEnhancer.element(element)] for the enhancer built from [c].
    A title or description is used when it is truthy: a string that is
    not empty. *)
Definition MetaTagEnhancer_element (c : config) (e : element) : element :=
  let e :=
    if header_truthy (PAGE_TITLE c) then
      let e :=
        if String.eqb (tagName e) "title"
        then setInnerContent e (default "" (PAGE_TITLE c)) else e in
      let titleProperties := ["og:title"; "twitter:title"] in
      if includes_value titleProperties (getAttribute e "property") ||
         includes_value titleProperties (getAttribute e "name")
      then setAttribute e "content" (default "" (PAGE_TITLE c)) else e
    else e in
  let e :=
    if header_truthy (PAGE_DESCRIPTION c) then
      let descriptionProperties :=
        ["description"; "og:description"; "twitter:description"] in
      if includes_value descriptionProperties (getAttribute e "name") ||
         includes_value descriptionProperties (getAttribute e "property")
      then setAttribute e "content" (default "" (PAGE_DESCRIPTION c)) else e
    else e in
  let urlProperties := ["og:url"; "twitter:url"] in
  let e :=
    if includes_value urlProperties (getAttribute e "property") ||
       includes_value urlProperties (getAttribute e "name")
    then setAttribute e "content" ("https://" +:+ MY_DOMAIN c) else e in
  if match getAttribute e "name" with
     | Some n => String.eqb n "apple-itunes-app"
     | None => false
     end
  then remove e else e.

(** ** The navigation logic of the bootstrap script

    The script that [BodySectionEnhancer] emits keeps the visible path on
    the configured slugs.  Its functions are embedded over the one piece of
    browser state they read and write, [location.pathname].  The browser's
    URL parser is a parameter: [URL_pathname text] is the [pathname] of the
    URL that it parses [text] to.  The script gives [replaceState] texts
    that begin with [/] only, and resolves the texts given to [pushState]
    against the origin. *)

(** The four constants that the script declares. *)
Record tables := {
  t_SLUG_TO_PAGE : jsobj;
  t_PAGE_TO_SLUG : gmap string string;
  t_slugs : list string;
  t_pages : list string
}.

(** The constants as the script of a configuration declares them: the
    texts of [JSON.stringify], read back as literals (the texts are taken
    not to end the [script] element).  In an object literal a member
    written [__proto__] does not become a property.  The script reads
    [SLUG_TO_PAGE] at names of [slugs] only, which are own members with a
    string value, so that the prototype is reached for no name but
    [__proto__], whose member, a string, has left the prototype in
    place. *)
Definition embedded_tables (c : config) : tables :=
  {| t_SLUG_TO_PAGE :=
       List.filter (λ kv, negb (String.eqb kv.1 "__proto__"))
         (default [] (SLUG_TO_PAGE c));
     t_PAGE_TO_SLUG := delete "__proto__" (PAGE_TO_SLUG c);
     t_slugs := slugs c;
     t_pages := pages c |}.

(** [pathname.slice(-32)] *)
Definition slice_last32 (s : string) : string :=
  drop_chars (String.length s - 32) s.

(** [getCurrentPageId()] and [getCurrentSlug()] *)
Definition getCurrentPageId (pathname : string) : string := slice_last32 pathname.
Definition getCurrentSlug (pathname : string) : string := Str.slice1 pathname.

(** The read [PAGE_TO_SLUG[pageId]], as text; [None] is [undefined]. *)
Definition read_slug (t : tables) (pageId : string) : option string :=
  match t_PAGE_TO_SLUG t !! pageId with
  | Some slug => Some slug
  | None =>
      if bool_decide (pageId ∈ Object_prototype_keys)
      then Some (property_text (Inherited pageId)) else None
  end.

(** [slug === '' ? '/' : '/' + slug] *)
Definition slug_path (slug : string) : string :=
  if String.eqb slug "" then "/" else "/" +:+ slug.

(** [updateUrlSlug()]: the path afterwards, given the [replaceState] in
    force (a function of title, URL and current path). *)
Definition updateUrlSlug (t : tables) (replaceState : string → string → string → string)
    (pathname : string) : string :=
  match read_slug t (getCurrentPageId pathname) with
  | Some slug =>
      let newPath := slug_path slug in
      if negb (String.eqb pathname newPath)
      then replaceState "" newPath pathname else pathname
  | None => pathname
  end.

Section Navigation.

Variable URL_pathname : string → string.

(** The browser's own [history.replaceState(state, title, url)]. *)
Definition originalReplaceState (title url pathname : string) : string :=
  URL_pathname url.

(** The [history.replaceState] that [initializeNavigation] installs. *)
Definition replaceState (t : tables) (title url pathname : string) : string :=
  if negb (String.eqb title "bypass") &&
     bool_decide (getCurrentSlug pathname ∈ t_slugs t)
  then pathname
  else originalReplaceState title url pathname.

(** The [history.pushState] that [initializeNavigation] installs, called
    with the text [url]: the text that replaces [arguments[2]] before the
    call is passed on, [None] when the arguments are passed on as they
    are. *)
Definition pushState (t : tables) (url : string) : option string :=
  if String.eqb url "" then None
  else
    let pageId := slice_last32 (URL_pathname url) in
    if bool_decide (pageId ∈ t_pages t) then
      Some match read_slug t pageId with
           | Some slug => slug_path slug
           | None => "/undefined"
           end
    else None.

(** The [window.onpopstate] that [initializeNavigation] installs, over the
    handler that was installed before, if any. *)
Definition onpopstate (t : tables) (originalPopstate : option (string → string))
    (pathname : string) : string :=
  let currentSlug := getCurrentSlug pathname in
  let pathname :=
    if bool_decide (currentSlug ∈ t_slugs t) then
      let pageId := Get (t_SLUG_TO_PAGE t) currentSlug in
      if property_truthy pageId
      then replaceState t "bypass" ("/" +:+ property_text pageId) pathname
      else pathname
    else pathname in
  let pathname :=
    match originalPopstate with
    | Some handler => handler pathname
    | None => pathname
    end in
  updateUrlSlug t (replaceState t) pathname.

End Navigation.

(** ** Vocabulary of the statements *)

(** The conditions under which [fetchAndApply] answers before it reaches
    the two redirect handlers. *)
Definition answered_before_redirects (r : request) : bool :=
  let p := pathname (request_url r) in
  String.eqb (method r) "OPTIONS" ||
  String.eqb p "/robots.txt" || String.eqb p "/sitemap.xml" ||
  String.eqb p "/health" || String.eqb p "/_health" ||
  (Str.startsWith p "/app" && Str.endsWith p ".js") ||
  Str.startsWith p "/api".

(** A header is supplied when [headers.get] finds it with a value that is
    not the empty string. *)
Definition supplied (r : request) (name : string) : Prop :=
  ∃ v, headers_get (request_headers r) name = Some v ∧ v ≠ "".

(** The three headers that the preflight handler asks for are supplied. *)
Definition preflight_headers_supplied (r : request) : Prop :=
  supplied r "Origin" ∧ supplied r "Access-Control-Request-Method" ∧
  supplied r "Access-Control-Request-Headers".

(** The ways a lookup of [host] in the store fails: the key is absent, the
    stored text is empty, the text does not parse, or it parses to [null]. *)
Inductive resolution_fails (JSON_parse : string → parsed) (w : world) (host : string) : Prop :=
  | fails_absent :
      DOMAINS_CONFIG w !! host = None → resolution_fails JSON_parse w host
  | fails_empty :
      DOMAINS_CONFIG w !! host = Some "" → resolution_fails JSON_parse w host
  | fails_syntax (data : string) :
      DOMAINS_CONFIG w !! host = Some data → JSON_parse data = SyntaxError →
      resolution_fails JSON_parse w host
  | fails_null (data : string) :
      DOMAINS_CONFIG w !! host = Some data → JSON_parse data = ParsedNull →
      resolution_fails JSON_parse w host.

(** What a resolution that stores a value has parsed, and the value: the
    processed object, or the primitive as it is. *)
Definition stored_value (JSON_parse : string → parsed) (host data : string)
    (value : option config) : Prop :=
  (∃ raw, JSON_parse data = ParsedObject raw ∧
          value = Some (processConfigurationObject host raw)) ∨
  (∃ p, JSON_parse data = ParsedPrimitive p ∧ value = processed_primitive p).

(** The answer of [fetchAndApply] when no configuration resolves. *)
Definition not_configured (host : string) : response :=
  {| status := 404;
     headers := [("Content-Type", "text/plain")];
     body := Some ("Domain " +:+ Str.dquote +:+ host +:+ Str.dquote +:+
                   " not configured") |}.

(** The URL of the domain root. *)
Definition root_url (c : config) : string := "https://" +:+ MY_DOMAIN c +:+ "/".

(** [strip_prefix pre s] is what follows [pre] in [s]. *)
Fixpoint strip_prefix (pre s : string) : option string :=
  match pre, s with
  | "", _ => Some s
  | String a pre', String b s' =>
      if Ascii.eqb a b then strip_prefix pre' s' else None
  | String _ _, "" => None
  end.

(** The path that a visitor requests when following a redirect to
    [location] on the configured domain. *)
Definition location_path (c : config) (location : string) : option string :=
  strip_prefix ("https://" +:+ MY_DOMAIN c) location.

(** The page id of an entry that the [forEach] callback accepts: a string
    that is not empty. *)
Definition valid_page (v : jsval) : option string :=
  match v with
  | JStr s => if String.eqb s "" then None else Some s
  | _ => None
  end.

(** The accepted entries of an object, as pairs [(slug, pageId)], in the
    object's enumeration order. *)
Definition valid_entries (o : jsobj) : list (string * string) :=
  omap (λ e, (λ p, (e.1, p)) <$> valid_page e.2) o.

(** The slug of the last pair of [l] whose page id is [p]. *)
Fixpoint last_slug_of (l : list (string * string)) (p : string) : option string :=
  match l with
  | [] => None
  | (s, q) :: l' =>
      match last_slug_of l' p with
      | Some s' => Some s'
      | None => if String.eqb q p then Some s else None
      end
  end.

(** An entry whose key is an array index. *)
Definition index_key (e : string * jsval) : Prop := is_Some (array_index e.1).

(** [e'] is not enumerated before [e]. *)
Definition not_before (e e' : string * jsval) : Prop :=
  key_precedes e'.1 e.1 = false.

(** ** Reading a document back

    A reader of the elements of a document that is independent of the
    generator: [elements open close s] lists, for every place of [s] where
    the text [open] begins, the text between it and the next [close]. *)

(** [s] begins with [pat]. *)
Fixpoint starts (pat s : string) : bool :=
  match pat, s with
  | "", _ => true
  | String a pat', String b s' => Ascii.eqb a b && starts pat' s'
  | String _ _, "" => false
  end.

(** The text of [s] before the first place where [stop] begins. *)
Fixpoint text_before (stop s : string) : string :=
  match s with
  | "" => ""
  | String a s' => if starts stop s then "" else String a (text_before stop s')
  end.

Fixpoint elements (open close s : string) : list string :=
  match s with
  | "" => []
  | String a s' =>
      if starts open s
      then text_before close (drop_chars (String.length open) s) ::
           elements open close s'
      else elements open close s'
  end.

(** A text without the characters that are markup in XML. *)
Definition xml_plain (s : string) : bool :=
  Str.forall_chars
    (λ a, negb (Ascii.eqb a "<" || Ascii.eqb a ">" || Ascii.eqb a "&")) s.

(** The request [r] sent to the host [h] instead. *)
Definition with_hostname (r : request) (h : string) : request :=
  {| method := method r;
     request_url :=
       {| protocol := protocol (request_url r);
          hostname := h;
          pathname := pathname (request_url r);
          search := search (request_url r) |};
     request_headers := request_headers r;
     request_body := request_body r |}.

(** Every cached configuration that came from an object carries the
    hostname it is cached under; the other truthy values in the cache are
    primitives. *)
Definition cache_keyed (w : world) : Prop :=
  ∀ k c, domainConfigCache w !! k = Some (Some c) →
         MY_DOMAIN c = k ∨ c = primitive_config.

(** The URL on the upstream origin that corresponds to the URL of [r]. *)
Definition upstream_url (r : request) : string :=
  protocol (request_url r) +:+ "//" +:+ "faeton.notion.site" +:+
  pathname (request_url r) +:+ search (request_url r).

(** ** A concrete deployment

    The configuration and requests of the worked example: the domain
    [ex.com] with a root page and an [about] page. *)

(** An element carries one of the names [l] in its attribute [property]
    or in its attribute [name]. *)
Definition named_one_of (l : list string) (e : element) : bool :=
  includes_value l (getAttribute e "property") ||
  includes_value l (getAttribute e "name").

(** The value of the attribute [content] that the meta tag enhancer is to
    leave on an element: the URL of the domain on URL metadata, else the
    configured description on description metadata, else the configured
    title on title metadata, else the value the element had. *)
Definition meta_content (c : config) (e : element) : option string :=
  if named_one_of ["og:url"; "twitter:url"] e then
    Some ("https://" +:+ MY_DOMAIN c)
  else if header_truthy (PAGE_DESCRIPTION c) &&
          named_one_of ["description"; "og:description"; "twitter:description"] e then
    PAGE_DESCRIPTION c
  else if header_truthy (PAGE_TITLE c) &&
          named_one_of ["og:title"; "twitter:title"] e then
    PAGE_TITLE c
  else getAttribute e "content".

Module Example.

Definition home_id : string := "a1a1a1a1a1a1a1a1a1a1a1a1a1a1a1a1".
Definition about_id : string := "b2b2b2b2b2b2b2b2b2b2b2b2b2b2b2b2".
Definition stale_id : string := "c3c3c3c3c3c3c3c3c3c3c3c3c3c3c3c3".

(** [home_id] written in upper case. *)
Definition HOME_ID : string := "A1A1A1A1A1A1A1A1A1A1A1A1A1A1A1A1".

Definition raw_of (o : option jsobj) : raw_config :=
  {| raw_SLUG_TO_PAGE := o;
     raw_PAGE_TITLE := None;
     raw_PAGE_DESCRIPTION := None;
     raw_GOOGLE_FONT := None;
     raw_CUSTOM_SCRIPT := None |}.

(** The configuration resolved for [ex.com] from an object written with
    the given [SLUG_TO_PAGE] members. *)
Definition resolved (members : list (string * jsval)) : config :=
  processConfigurationObject "ex.com" (raw_of (Some (JSON_object members))).

Definition ex_com : config :=
  resolved [("", JStr home_id); ("about", JStr about_id)].

Definition request_to (m host path : string) (h : list (string * string)) : request :=
  {| method := m;
     request_url :=
       {| protocol := "https:"; hostname := host; pathname := path;
          search := "" |};
     request_headers := h;
     request_body := None |}.

Definition GET (path : string) : request := request_to "GET" "ex.com" path [].

Definition OPTIONS (path : string) : request :=
  request_to "OPTIONS" "ex.com" path [].

Definition empty_world : world :=
  {| DOMAINS_CONFIG := ∅; domainConfigCache := ∅ |}.

(** A stand-in for [JSON.parse] on the texts of the examples: ["{}"] is
    the object without members, the other texts used are not JSON. *)
Definition parse_braces (text : string) : parsed :=
  if String.eqb text "{}" then ParsedObject (raw_of None) else SyntaxError.

(** The same, with the numbers [0] and [42] read as JSON reads them. *)
Definition parse_numbers (text : string) : parsed :=
  if String.eqb text "0" then ParsedPrimitive (PNumber 0)
  else if String.eqb text "42" then ParsedPrimitive (PNumber 0x4045000000000000)
  else parse_braces text.

End Example.

(** * Properties *)

(** ** Strings and patterns *)

Lemma append_cons (a : ascii) (s t : string) :
  String a s +:+ t = String a (s +:+ t).
Proof. reflexivity. Qed.

Lemma append_assoc (s1 s2 s3 : string) : (s1 +:+ s2) +:+ s3 = s1 +:+ s2 +:+ s3.
Proof. induction s1 as [|a s1 IH]; [done|]. by rewrite !append_cons, IH. Qed.

Lemma append_cancel_empty (s t : string) : s +:+ t = s → t = "".
Proof.
  induction s as [|a s IH]; [done|].
  rewrite append_cons. intros H. injection H as H. by apply IH.
Qed.

Lemma in_list (x : string) (l : list string) :
  bool_decide (x ∈ l) = true → x ∈ l.
Proof. apply bool_decide_eq_true_1. Qed.

Lemma not_in_list (x : string) (l : list string) :
  bool_decide (x ∈ l) = false → x ∉ l.
Proof. apply bool_decide_eq_false_1. Qed.

Lemma truthy_text_nonempty (v : jsval) : truthy v = true → to_text v ≠ "".
Proof.
  destruct v as [|[]|s]; simpl; try done.
  intros H ->. done.
Qed.

Lemma property_truthy_text_nonempty (p : property) :
  property_truthy p = true → property_text p ≠ "".
Proof.
  destruct p as [v|name|]; simpl; [apply truthy_text_nonempty| |done].
  intros _. repeat case_match; done.
Qed.

Lemma pattern_length (s : string) :
  notionPageIdPattern_test s = true → String.length s = 32%nat.
Proof.
  unfold notionPageIdPattern_test. intros [H _]%andb_prop.
  by apply Nat.eqb_eq.
Qed.

Lemma pattern_chars (s : string) :
  notionPageIdPattern_test s = true → Str.forall_chars is_hex_digit s = true.
Proof. unfold notionPageIdPattern_test. by intros [_ H]%andb_prop. Qed.

(** A name inherited from [Object.prototype] is never a 32-digit id. *)
Lemma pattern_not_inherited (s : string) :
  notionPageIdPattern_test s = true →
  bool_decide (s ∈ Object_prototype_keys) = false.
Proof.
  intros H%pattern_length. apply bool_decide_eq_false.
  unfold Object_prototype_keys. rewrite !elem_of_cons, elem_of_nil.
  intros Hin.
  repeat (destruct Hin as [->|Hin]; [simpl in H; lia|]). done.
Qed.

Lemma startsWith_inv (p : string) (a b c d : ascii) :
  Str.startsWith p (String a (String b (String c (String d "")))) = true →
  ∃ r, p = String a (String b (String c (String d r))).
Proof.
  unfold Str.startsWith.
  destruct p as [|a' [|b' [|c' [|d' r]]]]; simpl; try done;
    repeat (destruct (ascii_dec _ _); try done).
  intros _. subst. by exists r.
Qed.

(** A path whose remainder after the first character is a 32-digit id is
    none of the paths that the dispatcher answers before the redirect
    handlers. *)
Lemma pattern_path_not_special (p : string) :
  notionPageIdPattern_test (Str.slice1 p) = true →
  String.eqb p "/robots.txt" = false ∧ String.eqb p "/sitemap.xml" = false ∧
  String.eqb p "/health" = false ∧ String.eqb p "/_health" = false ∧
  Str.startsWith p "/app" = false ∧ Str.startsWith p "/api" = false.
Proof.
  intros H.
  repeat split;
    try (apply String.eqb_neq; intros ->; vm_compute in H; discriminate).
  - destruct (Str.startsWith p "/app") eqn:E; [|done].
    apply startsWith_inv in E as [r ->].
    apply pattern_chars in H. simpl in H. vm_compute in H. discriminate.
  - destruct (Str.startsWith p "/api") eqn:E; [|done].
    apply startsWith_inv in E as [r ->].
    apply pattern_chars in H. simpl in H. vm_compute in H. discriminate.
Qed.

(** ** The dispatcher's precedence *)

Lemma dispatch_redirect_steps (r : request) (c : config) :
  answered_before_redirects r = false →
  dispatch r c =
    match handleSlugRedirection (request_url r) c with
    | inl e => inl e
    | inr (Some resp) => inr (Respond resp)
    | inr None =>
        match handleUnknownPageRedirection (request_url r) c with
        | Some resp => inr (Respond resp)
        | None =>
            inr (handleHtmlContent
                   {| protocol := protocol (request_url r);
                      hostname := MY_NOTION_USERNAME +:+ ".notion.site";
                      pathname := pathname (request_url r);
                      search := search (request_url r) |} r)
        end
    end.
Proof.
  unfold answered_before_redirects, dispatch. intros H.
  repeat (apply orb_false_elim in H as [H ?]).
  repeat match goal with E : _ = false |- _ => rewrite E; clear E end.
  reflexivity.
Qed.

Lemma pattern_request_not_special (r : request) :
  notionPageIdPattern_test (Str.slice1 (pathname (request_url r))) = true →
  answered_before_redirects r = String.eqb (method r) "OPTIONS".
Proof.
  intros (E1 & E2 & E3 & E4 & E5 & E6)%pattern_path_not_special.
  unfold answered_before_redirects. rewrite E1, E2, E3, E4, E5, E6. simpl.
  by rewrite !orb_false_r.
Qed.

(** A request other than a preflight whose path carries a 32-digit id
    reaches the two redirect handlers. *)
Lemma dispatch_pattern_path (r : request) (c : config) :
  notionPageIdPattern_test (Str.slice1 (pathname (request_url r))) = true →
  method r ≠ "OPTIONS" →
  dispatch r c =
    match handleSlugRedirection (request_url r) c with
    | inl e => inl e
    | inr (Some resp) => inr (Respond resp)
    | inr None =>
        match handleUnknownPageRedirection (request_url r) c with
        | Some resp => inr (Respond resp)
        | None =>
            inr (handleHtmlContent
                   {| protocol := protocol (request_url r);
                      hostname := MY_NOTION_USERNAME +:+ ".notion.site";
                      pathname := pathname (request_url r);
                      search := search (request_url r) |} r)
        end
    end.
Proof.
  intros Hpat Hm. apply dispatch_redirect_steps.
  rewrite (pattern_request_not_special r Hpat). by apply String.eqb_neq.
Qed.

(** ** Sitemap *)

Example sitemap_of_ex_com :
  generateSitemap Example.ex_com =
    sitemap_head +:+
    "<url><loc>https://ex.com/</loc><changefreq>weekly</changefreq><priority>0.8</priority></url>" +:+
    Str.newline +:+
    "<url><loc>https://ex.com/about</loc><changefreq>weekly</changefreq><priority>0.8</priority></url>" +:+
    sitemap_foot.
Proof. reflexivity. Qed.

(** ** API passthrough *)

(** C7.  A request other than a preflight whose path begins with [/api] is
    handed to the API handler, and every call that handler issues goes to
    the upstream origin with method POST, the fixed content type and
    user agent, and the body of the inbound request, or no body at all
    when the path contains [/api/v3/getPublicPageData]. *)
Theorem api_passthrough_outbound (r : request) (c : config) :
  let u := request_url r in
  let expected :=
    ApiRequests
      (protocol u +:+ "//" +:+ "faeton.notion.site" +:+ pathname u +:+ search u)
      {| init_method := "POST";
         init_headers :=
           [ ("Content-Type", "application/json;charset=UTF-8");
             ("User-Agent",
              "Mozilla/5.0 (Macintosh; Intel Mac OS X 10_15_7) AppleWebKit/537.36 (KHTML, like Gecko) Chrome/91.0.4472.124 Safari/537.36") ];
         init_body :=
           if Str.includes (pathname u) "/api/v3/getPublicPageData" then None
           else Some (request_body r) |} in
  (Str.startsWith (pathname u) "/api" = true → method r ≠ "OPTIONS" →
   dispatch r c = inr expected) ∧
  (∀ target init,
     dispatch r c = inr (ApiRequests target init) →
     Str.startsWith (pathname u) "/api" = true ∧ ApiRequests target init = expected).
Proof.
  intros u expected.
  assert (Hcall :
    handleApiRequests
      {| protocol := protocol u;
         hostname := MY_NOTION_USERNAME +:+ ".notion.site";
         pathname := pathname u; search := search u |} r = expected).
  { unfold handleApiRequests, expected, href. simpl.
    by destruct (Str.includes (pathname u) "/api/v3/getPublicPageData"). }
  split.
  - intros Hapi Hm. unfold dispatch. fold u.
    apply String.eqb_neq in Hm. rewrite Hm.
    destruct (startsWith_inv _ _ _ _ _ Hapi) as [rest Hp].
    rewrite Hapi, Hp. simpl. rewrite <- Hp. by rewrite Hcall.
  - intros target init. unfold dispatch. fold u.
    destruct (String.eqb (method r) "OPTIONS"); [done|].
    destruct (String.eqb (pathname u) "/robots.txt"); [done|].
    destruct (String.eqb (pathname u) "/sitemap.xml"); [done|].
    destruct (String.eqb (pathname u) "/health" ||
              String.eqb (pathname u) "/_health"); [done|].
    destruct (Str.startsWith (pathname u) "/app" &&
              Str.endsWith (pathname u) ".js"); [done|].
    destruct (Str.startsWith (pathname u) "/api") eqn:Hapi.
    + rewrite Hcall. intros [= <- <-]. by split.
    + destruct (handleSlugRedirection u c) as [|[|]]; [done..|].
      by destruct (handleUnknownPageRedirection u c).
Qed.

Lemma api_passthrough_outbound_witness :
  let r := {| method := "POST";
              request_url :=
                {| protocol := "https:"; hostname := "www.ex.com";
                   pathname := "/api/v3/loadPageChunk"; search := "" |};
              request_headers := [("Content-Type", "application/json")];
              request_body := Some "{}" |} in
  dispatch r Example.ex_com =
    inr (ApiRequests "https://faeton.notion.site/api/v3/loadPageChunk"
           {| init_method := "POST";
              init_headers :=
                [ ("Content-Type", "application/json;charset=UTF-8");
                  ("User-Agent",
                   "Mozilla/5.0 (Macintosh; Intel Mac OS X 10_15_7) AppleWebKit/537.36 (KHTML, like Gecko) Chrome/91.0.4472.124 Safari/537.36") ];
              init_body := Some (Some "{}") |}).
Proof.
  intros r.
  apply (proj1 (api_passthrough_outbound r Example.ex_com));
    [reflexivity | discriminate].
Defined.

Example page_data_call_has_no_body :
  dispatch (Example.GET "/api/v3/getPublicPageData") Example.ex_com =
    inr (ApiRequests "https://faeton.notion.site/api/v3/getPublicPageData"
           {| init_method := "POST";
              init_headers :=
                [ ("Content-Type", "application/json;charset=UTF-8");
                  ("User-Agent",
                   "Mozilla/5.0 (Macintosh; Intel Mac OS X 10_15_7) AppleWebKit/537.36 (KHTML, like Gecko) Chrome/91.0.4472.124 Safari/537.36") ];
              init_body := None |}).
Proof. reflexivity. Qed.

(** ** CORS preflight *)

Lemma header_truthy_supplied (r : request) (name : string) :
  header_truthy (headers_get (request_headers r) name) = true ↔ supplied r name.
Proof.
  unfold supplied, header_truthy.
  destruct (headers_get (request_headers r) name) as [v|].
  - destruct (String.eqb_spec v "") as [->|Hne]; simpl.
    + split; [done|]. by intros (v & [= <-] & Hv).
    + split; [|done]. intros _. by exists v.
  - split; [done|]. by intros (v & ? & _).
Qed.

(** C6, as stated, fails: a preflight that carries all three headers, one
    of them with an empty value ([headers.get] returns the empty string,
    not [null]), is answered 405. *)
Lemma cors_present_but_empty_header_is_405 :
  let r := Example.request_to "OPTIONS" "ex.com" "/about"
             [ ("Origin", "https://app.example");
               ("Access-Control-Request-Method", "POST");
               ("Access-Control-Request-Headers", "") ] in
  is_Some (headers_get (request_headers r) "Origin") ∧
  is_Some (headers_get (request_headers r) "Access-Control-Request-Method") ∧
  is_Some (headers_get (request_headers r) "Access-Control-Request-Headers") ∧
  status (handleCorsPreflightRequest r) = 405 ∧
  status (handleCorsPreflightRequest r) ≠ 204.
Proof. intros r. repeat split; try (by eexists); done. Qed.

(** C6, amended.  When [Origin], [Access-Control-Request-Method] and
    [Access-Control-Request-Headers] are all supplied with a non-empty
    value, the preflight handler answers 204 with the fixed permissive CORS
    headers; when one of them is missing or empty it answers 405 with an
    [Allow] header that lists the supported methods. *)
Theorem cors_preflight_response (r : request) :
  (preflight_headers_supplied r →
   handleCorsPreflightRequest r =
     {| status := 204;
        headers :=
          [ ("Access-Control-Allow-Origin", "*");
            ("Access-Control-Allow-Methods", "GET, HEAD, POST, PUT, OPTIONS");
            ("Access-Control-Allow-Headers", "Content-Type, Authorization") ];
        body := None |}) ∧
  (¬ preflight_headers_supplied r →
   handleCorsPreflightRequest r =
     {| status := 405;
        headers := [("Allow", "GET, HEAD, POST, PUT, OPTIONS")];
        body := None |}).
Proof.
  unfold preflight_headers_supplied, handleCorsPreflightRequest.
  rewrite <- !header_truthy_supplied.
  destruct (header_truthy (headers_get (request_headers r) "Origin"));
  destruct (header_truthy
              (headers_get (request_headers r) "Access-Control-Request-Method"));
  destruct (header_truthy
              (headers_get (request_headers r) "Access-Control-Request-Headers"));
  simpl; split; try done; try (by intros (? & ? & ?)).
  intros H. by destruct H.
Qed.

Lemma cors_preflight_response_witness :
  let full := Example.request_to "OPTIONS" "ex.com" "/about"
                [ ("origin", "https://app.example");
                  ("Access-Control-Request-Method", "POST");
                  ("Access-Control-Request-Headers", "content-type") ] in
  let bare := Example.request_to "OPTIONS" "ex.com" "/about"
                [ ("Origin", "https://app.example") ] in
  status (handleCorsPreflightRequest full) = 204 ∧
  status (handleCorsPreflightRequest bare) = 405.
Proof.
  intros full bare. split.
  - rewrite (proj1 (cors_preflight_response full)); [reflexivity|].
    repeat split; eexists; (split; [reflexivity | discriminate]).
  - rewrite (proj2 (cors_preflight_response bare)); [reflexivity|].
    intros (_ & (v & Hv & _) & _). discriminate Hv.
Defined.

(** Every OPTIONS request for a resolved configuration is answered by the
    preflight handler. *)
Lemma dispatch_options (r : request) (c : config) :
  method r = "OPTIONS" →
  dispatch r c = inr (Respond (handleCorsPreflightRequest r)).
Proof. intros H. unfold dispatch. by rewrite H. Qed.

(** ** Configuration resolution *)

Lemma getDomainConfig_fails (JSON_parse : string → parsed) (hostname : string) (w : world) :
  domainConfigCache w !! strip_www hostname = None →
  resolution_fails JSON_parse w (strip_www hostname) →
  getDomainConfig JSON_parse hostname w = (None, w).
Proof.
  intros Hmiss Hfail. unfold getDomainConfig. simpl. rewrite Hmiss.
  destruct Hfail as [H|H|data H Hp|data H Hp]; rewrite H; try done.
  - destruct (String.eqb data ""); [done|]. by rewrite Hp.
  - destruct (String.eqb data ""); [done|]. by rewrite Hp.
Qed.

Lemma getDomainConfig_hit (JSON_parse : string → parsed) (hostname : string) (w : world)
    (cached : option config) :
  domainConfigCache w !! strip_www hostname = Some cached →
  getDomainConfig JSON_parse hostname w = (cached, w).
Proof. intros H. unfold getDomainConfig. simpl. by rewrite H. Qed.

Lemma getDomainConfig_loads (JSON_parse : string → parsed) (hostname : string) (w : world)
    (data : string) (raw : raw_config) :
  domainConfigCache w !! strip_www hostname = None →
  DOMAINS_CONFIG w !! strip_www hostname = Some data →
  data ≠ "" →
  JSON_parse data = ParsedObject raw →
  getDomainConfig JSON_parse hostname w =
    (Some (processConfigurationObject (strip_www hostname) raw),
     {| DOMAINS_CONFIG := DOMAINS_CONFIG w;
        domainConfigCache :=
          <[strip_www hostname :=
              Some (processConfigurationObject (strip_www hostname) raw)]>
            (domainConfigCache w) |}).
Proof.
  intros Hmiss Hget Hne Hp. unfold getDomainConfig. simpl.
  rewrite Hmiss, Hget. apply String.eqb_neq in Hne. by rewrite Hne, Hp.
Qed.

Lemma getDomainConfig_primitive (JSON_parse : string → parsed) (hostname : string) (w : world)
    (data : string) (p : primitive) :
  domainConfigCache w !! strip_www hostname = None →
  DOMAINS_CONFIG w !! strip_www hostname = Some data →
  data ≠ "" →
  JSON_parse data = ParsedPrimitive p →
  getDomainConfig JSON_parse hostname w =
    (processed_primitive p,
     {| DOMAINS_CONFIG := DOMAINS_CONFIG w;
        domainConfigCache :=
          <[strip_www hostname := processed_primitive p]>
            (domainConfigCache w) |}).
Proof.
  intros Hmiss Hget Hne Hp. unfold getDomainConfig. simpl.
  rewrite Hmiss, Hget. apply String.eqb_neq in Hne. by rewrite Hne, Hp.
Qed.

(** The three ways a resolution ends. *)
Lemma getDomainConfig_cases (JSON_parse : string → parsed) (hostname : string) (w : world) :
  let host := strip_www hostname in
  (∃ cached, domainConfigCache w !! host = Some cached ∧
             getDomainConfig JSON_parse hostname w = (cached, w)) ∨
  (domainConfigCache w !! host = None ∧ resolution_fails JSON_parse w host ∧
   getDomainConfig JSON_parse hostname w = (None, w)) ∨
  (∃ data value,
     domainConfigCache w !! host = None ∧
     DOMAINS_CONFIG w !! host = Some data ∧ data ≠ "" ∧
     stored_value JSON_parse host data value ∧
     getDomainConfig JSON_parse hostname w =
       (value,
        {| DOMAINS_CONFIG := DOMAINS_CONFIG w;
           domainConfigCache := <[host := value]> (domainConfigCache w) |})).
Proof.
  intros host.
  destruct (domainConfigCache w !! host) as [c|] eqn:Hc.
  { left. exists c. split; [done|]. by apply getDomainConfig_hit. }
  right.
  destruct (DOMAINS_CONFIG w !! host) as [data|] eqn:Hd.
  2: { left. split; [done|].
       assert (resolution_fails JSON_parse w host) by (by apply fails_absent).
       split; [done|]. by apply getDomainConfig_fails. }
  destruct (String.eqb_spec data "") as [->|Hne].
  { left. split; [done|].
    assert (resolution_fails JSON_parse w host) by (by apply fails_empty).
    split; [done|]. by apply getDomainConfig_fails. }
  destruct (JSON_parse data) as [| |p|raw] eqn:Hp.
  - left. split; [done|].
    assert (resolution_fails JSON_parse w host) by (by apply (fails_syntax _ _ _ data)).
    split; [done|]. by apply getDomainConfig_fails.
  - left. split; [done|].
    assert (resolution_fails JSON_parse w host) by (by apply (fails_null _ _ _ data)).
    split; [done|]. by apply getDomainConfig_fails.
  - right. exists data, (processed_primitive p). repeat split; try done.
    + right. by exists p.
    + by apply getDomainConfig_primitive with data.
  - right. exists data, (Some (processConfigurationObject host raw)).
    repeat split; try done.
    + left. by exists raw.
    + by apply getDomainConfig_loads with data.
Qed.

(** Once a configuration has resolved, the answer of [fetchAndApply] is
    that of [dispatch]. *)
Lemma fetchAndApply_resolved
    (JSON_parse : string → parsed) (r : request) (w w' : world) (c : config) (o : outcome) :
  getDomainConfig JSON_parse (strip_www (hostname (request_url r))) w = (Some c, w') →
  dispatch r c = inr o →
  fetchAndApply JSON_parse r w = (o, w').
Proof. intros Hc Hd. unfold fetchAndApply. by rewrite Hc, Hd. Qed.




Example absent_host_is_not_cached :
  fetchAndApply Example.parse_braces
    (Example.request_to "GET" "nope.com" "/" []) Example.empty_world =
  (Respond (not_configured "nope.com"), Example.empty_world).
Proof. reflexivity. Qed.

Example stored_configuration_is_cached :
  let w := {| DOMAINS_CONFIG := {["ex.com" := "{}"]}; domainConfigCache := ∅ |} in
  (getDomainConfig Example.parse_braces "www.ex.com" w).2 =
  {| DOMAINS_CONFIG := {["ex.com" := "{}"]};
     domainConfigCache :=
       {["ex.com" :=
           Some (processConfigurationObject "ex.com" (Example.raw_of None))]} |}.
Proof. reflexivity. Qed.

(** ** Health check *)

(** C2, as stated, fails: the health path of a hostname for which no
    configuration resolves is answered 404, not 200. *)
Lemma health_of_unconfigured_host_is_404 :
  (fetchAndApply Example.parse_braces
     (Example.request_to "GET" "nope.com" "/health" []) Example.empty_world).1 =
  Respond
    {| status := 404;
       headers := [("Content-Type", "text/plain")];
       body := Some ("Domain " +:+ Str.dquote +:+ "nope.com" +:+ Str.dquote +:+
                     " not configured") |}.
Proof. reflexivity. Qed.

(** C2, amended.  A GET request for [/health] or [/_health] is answered
    200 with the plain-text body [OK] whenever a configuration resolves for
    its hostname, whatever that configuration holds; when none resolves it
    is answered 404 like every other request. *)
Theorem health_check_response
    (JSON_parse : string → parsed) (r : request) (w : world) :
  method r = "GET" →
  pathname (request_url r) = "/health" ∨ pathname (request_url r) = "/_health" →
  let host := strip_www (hostname (request_url r)) in
  (∀ c w', getDomainConfig JSON_parse host w = (Some c, w') →
     fetchAndApply JSON_parse r w =
       (Respond {| status := 200;
                   headers := [("Content-Type", "text/plain")];
                   body := Some "OK" |}, w')) ∧
  (∀ w', getDomainConfig JSON_parse host w = (None, w') →
     fetchAndApply JSON_parse r w = (Respond (not_configured host), w')).
Proof.
  intros Hm Hp host. split.
  - intros c w' E. unfold fetchAndApply. fold host. rewrite E.
    unfold dispatch. rewrite Hm. simpl.
    by destruct Hp as [-> | ->].
  - intros w' E. unfold fetchAndApply. fold host. by rewrite E.
Qed.

Lemma health_check_response_witness :
  (fetchAndApply Example.parse_braces
     (Example.request_to "GET" "www.ex.com" "/_health" [])
     {| DOMAINS_CONFIG := ∅;
        domainConfigCache := {["ex.com" := Some Example.ex_com]} |}).1 =
  Respond {| status := 200;
             headers := [("Content-Type", "text/plain")];
             body := Some "OK" |}.
Proof.
  rewrite (proj1 (health_check_response Example.parse_braces
                    (Example.request_to "GET" "www.ex.com" "/_health" [])
                    {| DOMAINS_CONFIG := ∅;
                       domainConfigCache := {["ex.com" := Some Example.ex_com]} |}
                    eq_refl (or_intror eq_refl))
                 Example.ex_com
                 {| DOMAINS_CONFIG := ∅;
                    domainConfigCache := {["ex.com" := Some Example.ex_com]} |});
    reflexivity.
Defined.

(** ** Redirects *)

Lemma page_url_not_root (c : config) (text : string) :
  text ≠ "" → "https://" +:+ MY_DOMAIN c +:+ "/" +:+ text ≠ root_url c.
Proof.
  intros Hne E. apply Hne. apply (append_cancel_empty (root_url c)).
  unfold root_url. by rewrite !append_assoc.
Qed.

Lemma redirect_eq_inv (a b : string) :
  @inr thrown outcome (Respond (Response_redirect a 301)) =
    inr (Respond (Response_redirect b 301)) →
  a = b.
Proof.
  intros E.
  apply (f_equal (λ x, match x with
                       | inr (Respond resp) =>
                           match headers resp with
                           | (_, l) :: _ => l
                           | [] => ""
                           end
                       | _ => ""
                       end)) in E.
  exact E.
Qed.

Lemma answered_before_redirects_false (r : request) :
  let p := pathname (request_url r) in
  method r ≠ "OPTIONS" →
  p ≠ "/robots.txt" → p ≠ "/sitemap.xml" → p ≠ "/health" → p ≠ "/_health" →
  Str.startsWith p "/app" && Str.endsWith p ".js" = false →
  Str.startsWith p "/api" = false →
  answered_before_redirects r = false.
Proof.
  intros p Hm H1 H2 H3 H4 H5 H6. unfold answered_before_redirects. fold p.
  apply String.eqb_neq in Hm, H1, H2, H3, H4.
  by rewrite Hm, H1, H2, H3, H4, H5, H6.
Qed.

Lemma handleSlugRedirection_own (u : url) (c : config) (o : jsobj) (v : jsval) :
  SLUG_TO_PAGE c = Some o →
  own o (Str.slice1 (pathname u)) = Some v →
  handleSlugRedirection u c =
    inr (if truthy v then
           Some (Response_redirect
                   (if String.eqb (Str.slice1 (pathname u)) "" then root_url c
                    else "https://" +:+ MY_DOMAIN c +:+ "/" +:+ to_text v) 301)
         else None).
Proof.
  intros Ho Hv. unfold handleSlugRedirection, Get. rewrite Ho, Hv. simpl.
  by destruct (truthy v).
Qed.

(** C3, as stated, fails: a path that matches a key is not redirected when
    the key's page id is empty, when the request is a preflight, or when
    the path is one that an earlier route answers. *)
Lemma slug_key_without_redirect :
  (own (JSON_object [("", JStr Example.home_id); ("draft", JStr "")]) "draft"
     = Some (JStr "") ∧
   dispatch (Example.GET "/draft")
     (Example.resolved [("", JStr Example.home_id); ("draft", JStr "")]) =
     inr (HtmlContent "https://faeton.notion.site/draft"
            {| init_method := "GET"; init_headers := [];
               init_body := Some None |})) ∧
  (own (JSON_object [("", JStr Example.home_id); ("about", JStr Example.about_id)])
     "about" = Some (JStr Example.about_id) ∧
   dispatch (Example.OPTIONS "/about") Example.ex_com =
     inr (Respond {| status := 405;
                     headers := [("Allow", "GET, HEAD, POST, PUT, OPTIONS")];
                     body := None |})) ∧
  (own (JSON_object [("health", JStr Example.about_id)]) "health"
     = Some (JStr Example.about_id) ∧
   dispatch (Example.GET "/health")
     (Example.resolved [("health", JStr Example.about_id)]) =
     inr (Respond {| status := 200;
                     headers := [("Content-Type", "text/plain")];
                     body := Some "OK" |})).
Proof. repeat split. Qed.

(** C3, amended.  For every request that is not a preflight and whose path
    is none of [/robots.txt], [/sitemap.xml], [/health], [/_health],
    [/app….js], [/api…]: when the path minus its first character is a key
    of [SLUG_TO_PAGE] whose value is truthy (a non-empty page id), the
    answer is a 301 redirect, to [https://<domain>/] for the root slug and
    to [https://<domain>/<pageId>] for any other key. *)
Theorem slug_redirect (r : request) (c : config) (o : jsobj) (v : jsval) :
  let p := pathname (request_url r) in
  let slug := Str.slice1 p in
  SLUG_TO_PAGE c = Some o → own o slug = Some v → truthy v = true →
  method r ≠ "OPTIONS" →
  p ≠ "/robots.txt" → p ≠ "/sitemap.xml" → p ≠ "/health" → p ≠ "/_health" →
  Str.startsWith p "/app" && Str.endsWith p ".js" = false →
  Str.startsWith p "/api" = false →
  dispatch r c =
    inr (Respond
           (Response_redirect
              (if bool_decide (slug = "") then "https://" +:+ MY_DOMAIN c +:+ "/"
               else "https://" +:+ MY_DOMAIN c +:+ "/" +:+ to_text v) 301)).
Proof.
  intros p slug Ho Hv Ht Hm H1 H2 H3 H4 H5 H6.
  rewrite dispatch_redirect_steps by (by apply answered_before_redirects_false).
  rewrite (handleSlugRedirection_own _ _ o v Ho Hv), Ht. fold p slug.
  destruct (String.eqb_spec slug "") as [E|E].
  - by rewrite bool_decide_eq_true_2.
  - by rewrite bool_decide_eq_false_2.
Qed.

Lemma slug_redirect_witness :
  dispatch (Example.GET "/about") Example.ex_com =
    inr (Respond (Response_redirect
                    "https://ex.com/b2b2b2b2b2b2b2b2b2b2b2b2b2b2b2b2" 301)) ∧
  dispatch (Example.GET "/") Example.ex_com =
    inr (Respond (Response_redirect "https://ex.com/" 301)).
Proof.
  split.
  - apply (slug_redirect (Example.GET "/about") Example.ex_com
             (JSON_object [("", JStr Example.home_id);
                           ("about", JStr Example.about_id)])
             (JStr Example.about_id));
      (reflexivity || discriminate).
  - apply (slug_redirect (Example.GET "/") Example.ex_com
             (JSON_object [("", JStr Example.home_id);
                           ("about", JStr Example.about_id)])
             (JStr Example.home_id));
      (reflexivity || discriminate).
Defined.

Lemma preflight_is_not_redirect (r : request) (loc : string) :
  handleCorsPreflightRequest r ≠ Response_redirect loc 301.
Proof.
  unfold handleCorsPreflightRequest, Response_redirect.
  by destruct (_ && _).
Qed.

Lemma Get_pattern_key (o : jsobj) (seg : string) :
  notionPageIdPattern_test seg = true →
  Get o seg = match own o seg with Some v => Own v | None => Undefined end.
Proof. intros H. unfold Get. by rewrite (pattern_not_inherited seg H). Qed.

Lemma pattern_nonempty (seg : string) :
  notionPageIdPattern_test seg = true → String.eqb seg "" = false.
Proof.
  intros H%pattern_length. apply String.eqb_neq. intros ->. simpl in H. lia.
Qed.

(** C4, as stated, fails in two ways: a preflight for an unknown 32-digit
    path is answered by the preflight handler, not redirected; and for a
    configuration without [SLUG_TO_PAGE], in which the path is no key of
    that mapping and [pages] is empty, the request is answered 500. *)
Lemma unknown_page_is_not_always_redirected :
  notionPageIdPattern_test Example.stale_id = true ∧
  (Example.stale_id ∉ pages Example.ex_com) ∧
  own (JSON_object [("", JStr Example.home_id); ("about", JStr Example.about_id)])
    Example.stale_id = None ∧
  dispatch (Example.OPTIONS "/c3c3c3c3c3c3c3c3c3c3c3c3c3c3c3c3") Example.ex_com =
    inr (Respond {| status := 405;
                    headers := [("Allow", "GET, HEAD, POST, PUT, OPTIONS")];
                    body := None |}) ∧
  (Example.stale_id ∉
     pages (processConfigurationObject "ex.com" (Example.raw_of None))) ∧
  fetchAndApply Example.parse_braces (Example.GET "/c3c3c3c3c3c3c3c3c3c3c3c3c3c3c3c3")
    {| DOMAINS_CONFIG := {["ex.com" := "{}"]}; domainConfigCache := ∅ |} =
  (Respond
     {| status := 500;
        headers := [("Content-Type", "text/plain")];
        body := Some "Internal Server Error: Cannot read properties of undefined (reading 'c3c3c3c3c3c3c3c3c3c3c3c3c3c3c3c3')" |},
   {| DOMAINS_CONFIG := {["ex.com" := "{}"]};
      domainConfigCache :=
        {["ex.com" :=
            Some (processConfigurationObject "ex.com" (Example.raw_of None))]} |}).
Proof.
  split; [reflexivity|]. split; [by apply not_in_list|].
  split; [reflexivity|]. split; [reflexivity|].
  split; [by apply not_in_list|]. reflexivity.
Qed.

(** C4, amended.  Take a configuration that has a [SLUG_TO_PAGE] mapping
    and a request other than a preflight whose path minus its first
    character is a 32-hex-digit string.  If the string is a key of the
    mapping with a truthy value, the answer is the 301 redirect of the slug
    rule, whose target is written [https://<domain>/<value>], whether the
    string is in [pages] or not.  Otherwise, if the string is in [pages],
    the request is not redirected: it is passed to the page fetch.
    Otherwise the answer is a 301 redirect to [https://<domain>/]. *)
Theorem page_id_path_redirect (r : request) (c : config) (o : jsobj) :
  let seg := Str.slice1 (pathname (request_url r)) in
  notionPageIdPattern_test seg = true →
  SLUG_TO_PAGE c = Some o → method r ≠ "OPTIONS" →
  (∀ v, own o seg = Some v → truthy v = true →
     dispatch r c =
       inr (Respond (Response_redirect
                       ("https://" +:+ MY_DOMAIN c +:+ "/" +:+ to_text v) 301))) ∧
  (property_truthy (Get o seg) = false → seg ∈ pages c →
     dispatch r c =
       inr (handleHtmlContent
              {| protocol := protocol (request_url r);
                 hostname := MY_NOTION_USERNAME +:+ ".notion.site";
                 pathname := pathname (request_url r);
                 search := search (request_url r) |} r)) ∧
  (property_truthy (Get o seg) = false → seg ∉ pages c →
     dispatch r c =
       inr (Respond (Response_redirect ("https://" +:+ MY_DOMAIN c +:+ "/") 301))).
Proof.
  intros seg Hpat Ho Hm.
  rewrite dispatch_pattern_path by done.
  unfold handleSlugRedirection. fold seg.
  rewrite Ho, (pattern_nonempty seg Hpat), (Get_pattern_key o seg Hpat).
  split; [|split].
  - intros v -> Hv. simpl. by rewrite Hv.
  - intros Hfalse Hin. rewrite Hfalse.
    unfold handleUnknownPageRedirection. fold seg.
    by rewrite Hpat, bool_decide_eq_true_2.
  - intros Hfalse Hnin. rewrite Hfalse.
    unfold handleUnknownPageRedirection. fold seg.
    by rewrite Hpat, bool_decide_eq_false_2.
Qed.

Lemma page_id_path_redirect_witness :
  dispatch (Example.GET "/a1a1a1a1a1a1a1a1a1a1a1a1a1a1a1a1")
    (Example.resolved [("a1a1a1a1a1a1a1a1a1a1a1a1a1a1a1a1", JStr Example.about_id)]) =
    inr (Respond (Response_redirect
                    ("https://" +:+ "ex.com" +:+ "/" +:+ Example.about_id) 301)) ∧
  dispatch (Example.GET "/a1a1a1a1a1a1a1a1a1a1a1a1a1a1a1a1") Example.ex_com =
    inr (HtmlContent "https://faeton.notion.site/a1a1a1a1a1a1a1a1a1a1a1a1a1a1a1a1"
           {| init_method := "GET"; init_headers := [];
              init_body := Some None |}) ∧
  dispatch (Example.GET "/c3c3c3c3c3c3c3c3c3c3c3c3c3c3c3c3") Example.ex_com =
    inr (Respond (Response_redirect ("https://" +:+ "ex.com" +:+ "/") 301)).
Proof.
  split; [|split].
  - apply (proj1 (page_id_path_redirect
                    (Example.GET "/a1a1a1a1a1a1a1a1a1a1a1a1a1a1a1a1")
                    (Example.resolved
                       [("a1a1a1a1a1a1a1a1a1a1a1a1a1a1a1a1", JStr Example.about_id)])
                    (JSON_object
                       [("a1a1a1a1a1a1a1a1a1a1a1a1a1a1a1a1", JStr Example.about_id)])
                    eq_refl eq_refl ltac:(discriminate))
                 (JStr Example.about_id));
      reflexivity.
  - apply (proj1 (proj2 (page_id_path_redirect
                    (Example.GET "/a1a1a1a1a1a1a1a1a1a1a1a1a1a1a1a1")
                    Example.ex_com
                    (JSON_object [("", JStr Example.home_id);
                                  ("about", JStr Example.about_id)])
                    eq_refl eq_refl ltac:(discriminate))));
      [reflexivity|by apply in_list].
  - apply (proj2 (proj2 (page_id_path_redirect
                    (Example.GET "/c3c3c3c3c3c3c3c3c3c3c3c3c3c3c3c3")
                    Example.ex_com
                    (JSON_object [("", JStr Example.home_id);
                                  ("about", JStr Example.about_id)])
                    eq_refl eq_refl ltac:(discriminate))));
      [reflexivity|by apply not_in_list].
Defined.

Example known_page_id_is_served :
  dispatch (Example.GET "/a1a1a1a1a1a1a1a1a1a1a1a1a1a1a1a1") Example.ex_com =
    inr (HtmlContent "https://faeton.notion.site/a1a1a1a1a1a1a1a1a1a1a1a1a1a1a1a1"
           {| init_method := "GET"; init_headers := [];
              init_body := Some None |}).
Proof. reflexivity. Qed.

(** ** Letter case of page ids *)

Lemma is_hex_digit_lower (a : ascii) :
  is_hex_digit (Str.lower_ascii a) = is_hex_digit a.
Proof. by destruct a as [[] [] [] [] [] [] [] []]. Qed.

Lemma pattern_lower (s : string) :
  notionPageIdPattern_test (Str.lower s) = notionPageIdPattern_test s.
Proof.
  unfold notionPageIdPattern_test. f_equal.
  - f_equal. induction s as [|a s IH]; simpl; [done|]. by rewrite IH.
  - induction s as [|a s IH]; simpl; [done|].
    by rewrite is_hex_digit_lower, IH.
Qed.

(** The pattern does not tell two spellings of one id apart. *)
Lemma pattern_ignores_case (s t : string) :
  Str.lower s = Str.lower t →
  notionPageIdPattern_test s = notionPageIdPattern_test t.
Proof. intros E. by rewrite <- (pattern_lower s), E, pattern_lower. Qed.

Lemma pages_of_missing_mapping (domain : string) (raw : raw_config) :
  raw_SLUG_TO_PAGE raw = None →
  pages (processConfigurationObject domain raw) = [].
Proof. intros E. unfold processConfigurationObject. by rewrite E. Qed.

(** C10, as stated, fails: the re-cased id is served when the
    configuration lists that spelling too, it is redirected to another page
    when it is itself a slug, and a preflight for it is answered by the
    preflight handler. *)
Lemma recased_page_id_without_root_redirect :
  (Example.home_id ∈
     pages (Example.resolved [("", JStr Example.home_id);
                              ("shout", JStr Example.HOME_ID)]) ∧
   dispatch (Example.GET "/A1A1A1A1A1A1A1A1A1A1A1A1A1A1A1A1")
     (Example.resolved [("", JStr Example.home_id);
                        ("shout", JStr Example.HOME_ID)]) =
     inr (HtmlContent
            "https://faeton.notion.site/A1A1A1A1A1A1A1A1A1A1A1A1A1A1A1A1"
            {| init_method := "GET"; init_headers := [];
               init_body := Some None |})) ∧
  (Example.home_id ∈
     pages (Example.resolved [("", JStr Example.home_id);
                              (Example.HOME_ID, JStr Example.about_id)]) ∧
   dispatch (Example.GET "/A1A1A1A1A1A1A1A1A1A1A1A1A1A1A1A1")
     (Example.resolved [("", JStr Example.home_id);
                        (Example.HOME_ID, JStr Example.about_id)]) =
     inr (Respond (Response_redirect
                     "https://ex.com/b2b2b2b2b2b2b2b2b2b2b2b2b2b2b2b2" 301))) ∧
  (Example.home_id ∈ pages Example.ex_com ∧
   dispatch (Example.OPTIONS "/A1A1A1A1A1A1A1A1A1A1A1A1A1A1A1A1") Example.ex_com =
     inr (Respond {| status := 405;
                     headers := [("Allow", "GET, HEAD, POST, PUT, OPTIONS")];
                     body := None |})).
Proof. repeat split; by apply in_list. Qed.

(** C10, amended.  Let a configuration list the 32-hex-digit page id [p],
    and let a request other than a preflight ask for the same digits in
    another letter case, a spelling that is neither listed in [pages]
    itself nor a key of [SLUG_TO_PAGE] with a truthy value.  Then the
    spelling passes the case-insensitive pattern, fails the case-sensitive
    membership test, and the request is answered with a 301 redirect to the
    domain root. *)
Theorem recased_page_id_is_redirected
    (r : request) (domain : string) (raw : raw_config) (p : string) :
  let c := processConfigurationObject domain raw in
  let seg := Str.slice1 (pathname (request_url r)) in
  p ∈ pages c → notionPageIdPattern_test p = true →
  Str.lower seg = Str.lower p →
  seg ∉ pages c →
  (∀ o v, raw_SLUG_TO_PAGE raw = Some o → own o seg = Some v → truthy v = false) →
  method r ≠ "OPTIONS" →
  seg ≠ p ∧
  notionPageIdPattern_test seg = true ∧
  bool_decide (seg ∈ pages c) = false ∧
  dispatch r c =
    inr (Respond (Response_redirect ("https://" +:+ domain +:+ "/") 301)).
Proof.
  intros c seg Hp Hpat Hcase Hnin Hkey Hm.
  assert (Hseg : notionPageIdPattern_test seg = true)
    by (by rewrite (pattern_ignores_case seg p Hcase)).
  split; [by intros ->|]. split; [done|].
  split; [by apply bool_decide_eq_false_2|].
  destruct (raw_SLUG_TO_PAGE raw) as [o|] eqn:Ho.
  2: { subst c. rewrite (pages_of_missing_mapping domain raw Ho) in Hp.
       by apply elem_of_nil in Hp. }
  rewrite dispatch_pattern_path by done.
  unfold handleSlugRedirection. fold seg.
  assert (HS : SLUG_TO_PAGE c = Some o) by done. rewrite HS.
  rewrite (Get_pattern_key o seg Hseg).
  assert (Hfalsy : property_truthy
                     match own o seg with Some v => Own v | None => Undefined end
                   = false).
  { destruct (own o seg) as [v|] eqn:Hv; [|done]. by apply (Hkey o v). }
  rewrite Hfalsy.
  unfold handleUnknownPageRedirection. fold seg.
  by rewrite Hseg, bool_decide_eq_false_2.
Qed.

Lemma recased_page_id_is_redirected_witness :
  dispatch (Example.GET "/A1A1A1A1A1A1A1A1A1A1A1A1A1A1A1A1") Example.ex_com =
    inr (Respond (Response_redirect "https://ex.com/" 301)).
Proof.
  apply (recased_page_id_is_redirected
           (Example.GET "/A1A1A1A1A1A1A1A1A1A1A1A1A1A1A1A1") "ex.com"
           (Example.raw_of
              (Some (JSON_object [("", JStr Example.home_id);
                                  ("about", JStr Example.about_id)])))
           Example.home_id).
  - by apply in_list.
  - reflexivity.
  - reflexivity.
  - by apply not_in_list.
  - intros o v [= <-]. discriminate.
  - discriminate.
Defined.

(** ** The redirect of the root slug *)

(** Whenever the root slug is configured with a truthy page id, a request
    for [/] is redirected to [https://<domain>/], that is to [/] again. *)
Lemma root_path_redirects_to_root (r : request) (c : config) (o : jsobj) (v : jsval) :
  pathname (request_url r) = "/" → method r ≠ "OPTIONS" →
  SLUG_TO_PAGE c = Some o → own o "" = Some v → truthy v = true →
  dispatch r c = inr (Respond (Response_redirect (root_url c) 301)).
Proof.
  intros Hp Hm Ho Hv Ht.
  rewrite dispatch_redirect_steps.
  - rewrite (handleSlugRedirection_own _ _ o v Ho); rewrite Hp; [|done].
    by rewrite Ht.
  - apply answered_before_redirects_false; rewrite ?Hp; done.
Qed.

(** C5 fails on the code for the root slug.  Redirecting the root slug of
    [ex.com] yields the location [https://ex.com/]; the request for the
    path of that location is answered by the same 301 again. *)
Theorem root_slug_redirect_repeats :
  ∃ location path,
    dispatch (Example.GET ("/" +:+ "")) Example.ex_com =
      inr (Respond (Response_redirect location 301)) ∧
    location_path Example.ex_com location = Some path ∧
    dispatch (Example.GET path) Example.ex_com =
      inr (Respond (Response_redirect location 301)).
Proof. exists "https://ex.com/", "/". repeat split. Qed.

(** ** Derived fields of a configuration *)

Lemma valid_page_Some (v : jsval) (p : string) :
  valid_page v = Some p ↔ v = JStr p ∧ p ≠ "".
Proof.
  destruct v as [|b|s]; simpl; try (split; [done|by intros [? _]]).
  destruct (String.eqb_spec s "") as [->|Hne]; split.
  - done.
  - by intros [[= <-] ?].
  - by intros [= <-].
  - by intros [[= <-] _].
Qed.

Lemma visit_entry_valid (d : derived) (e : string * jsval) :
  visit_entry d e =
    match valid_page e.2 with
    | Some p =>
        {| d_PAGE_TO_SLUG := assign (d_PAGE_TO_SLUG d) p e.1;
           d_slugs := d_slugs d ++ [e.1];
           d_pages := d_pages d ++ [p] |}
    | None => d
    end.
Proof.
  unfold visit_entry, valid_page. destruct (e.2) as [|b|s]; simpl; try done.
  by destruct (String.eqb s "").
Qed.

Lemma foldl_visit_entry (o : jsobj) (d : derived) :
  foldl visit_entry d o =
    {| d_PAGE_TO_SLUG :=
         foldl (λ m e, assign m e.2 e.1) (d_PAGE_TO_SLUG d) (valid_entries o);
       d_slugs := d_slugs d ++ (valid_entries o).*1;
       d_pages := d_pages d ++ (valid_entries o).*2 |}.
Proof.
  revert d. induction o as [|e o IH]; intros d.
  - destruct d. simpl. by rewrite !app_nil_r.
  - simpl. rewrite IH, visit_entry_valid. unfold valid_entries. simpl.
    destruct (valid_page e.2) as [p|]; simpl; [|done].
    by rewrite <- !app_assoc.
Qed.

Lemma processed_fields (domain : string) (raw : raw_config) (o : jsobj) :
  raw_SLUG_TO_PAGE raw = Some o →
  let c := processConfigurationObject domain raw in
  slugs c = (valid_entries o).*1 ∧ pages c = (valid_entries o).*2 ∧
  PAGE_TO_SLUG c = foldl (λ m e, assign m e.2 e.1) ∅ (valid_entries o).
Proof.
  intros Ho. unfold processConfigurationObject. rewrite Ho. simpl.
  by rewrite foldl_visit_entry.
Qed.

Lemma foldl_assign_lookup (l : list (string * string)) (m : gmap string string) (p : string) :
  foldl (λ m e, assign m e.2 e.1) m l !! p =
    if String.eqb p "__proto__" then m !! p
    else match last_slug_of l p with
         | Some s => Some s
         | None => m !! p
         end.
Proof.
  revert m. induction l as [|[s q] l IH]; intros m; simpl.
  - by destruct (String.eqb p "__proto__").
  - rewrite IH. unfold assign. simpl.
    destruct (String.eqb_spec p "__proto__") as [E|Hp].
    + destruct (String.eqb_spec q "__proto__") as [|Hq]; [done|].
      rewrite lookup_insert_ne; [done|]. by rewrite E.
    + destruct (last_slug_of l p) as [s'|]; [done|].
      destruct (String.eqb_spec q p) as [E|Hqp].
      * rewrite E. apply String.eqb_neq in Hp. rewrite Hp.
        by rewrite lookup_insert_eq.
      * destruct (String.eqb q "__proto__"); [done|]. by rewrite lookup_insert_ne.
Qed.

Lemma last_slug_of_elem (l : list (string * string)) (p s : string) :
  last_slug_of l p = Some s → (s, p) ∈ l.
Proof.
  induction l as [|[s' q] l IH]; simpl; [done|].
  destruct (last_slug_of l p) as [s''|].
  - intros [= <-]. right. by apply IH.
  - destruct (String.eqb_spec q p) as [->|]; [|done].
    intros [= <-]. left.
Qed.

Lemma last_slug_of_is_Some (l : list (string * string)) (p : string) :
  p ∈ l.*2 → is_Some (last_slug_of l p).
Proof.
  induction l as [|[s' q] l IH]; simpl; [by intros ?%elem_of_nil|].
  intros [<-|Hin]%elem_of_cons.
  - destruct (last_slug_of l p); [done|]. by rewrite String.eqb_refl.
  - destruct (IH Hin) as [s ->]. done.
Qed.

Lemma last_slug_of_unique (l : list (string * string)) (p s : string) :
  NoDup l.*2 → (s, p) ∈ l → last_slug_of l p = Some s.
Proof.
  induction l as [|[s' q] l IH]; simpl; [by intros _ ?%elem_of_nil|].
  intros [Hq Hnd]%NoDup_cons [[= <- <-]|Hin]%elem_of_cons.
  - destruct (last_slug_of l p) as [s''|] eqn:E.
    + exfalso. apply Hq. apply last_slug_of_elem in E.
      apply list_elem_of_fmap. by exists (s'', p).
    + by rewrite String.eqb_refl.
  - by rewrite (IH Hnd Hin).
Qed.

(** ** Own properties and their order *)

Lemma own_None (o : jsobj) (k : string) : own o k = None ↔ k ∉ o.*1.
Proof.
  induction o as [|[k' v] o IH]; simpl.
  - split; [intros _; apply not_elem_of_nil|done].
  - rewrite not_elem_of_cons.
    destruct (String.eqb_spec k k') as [->|Hne]; [split; [done|by intros [? _]]|].
    rewrite IH. split; [done|by intros [_ ?]].
Qed.

Lemma own_elem (o : jsobj) (k : string) (v : jsval) :
  own o k = Some v → (k, v) ∈ o.
Proof.
  induction o as [|[k' v'] o IH]; simpl; [done|].
  destruct (String.eqb_spec k k') as [->|Hne].
  - intros [= ->]. left.
  - intros H. right. by apply IH.
Qed.

Lemma own_NoDup (o : jsobj) (k : string) (v : jsval) :
  NoDup o.*1 → (k, v) ∈ o → own o k = Some v.
Proof.
  induction o as [|[k' v'] o IH]; simpl; [by intros _ ?%elem_of_nil|].
  intros [Hk Hnd]%NoDup_cons [[= <- <-]|Hin]%elem_of_cons.
  - by rewrite String.eqb_refl.
  - destruct (String.eqb_spec k k') as [<-|Hne]; [|by apply IH].
    exfalso. apply Hk. apply list_elem_of_fmap. by exists (k, v).
Qed.

Lemma overwrite_keys (k : string) (v : jsval) (o : jsobj) :
  (overwrite k v o).*1 = o.*1.
Proof.
  induction o as [|[k' v'] o IH]; simpl; [done|].
  destruct (String.eqb_spec k k') as [->|Hne]; csimpl; [done|]. by rewrite IH.
Qed.

Lemma place_perm (k : string) (v : jsval) (o : jsobj) :
  place k v o ≡ₚ (k, v) :: o.
Proof.
  induction o as [|[k' v'] o IH]; simpl; [done|].
  destruct (key_precedes k k'); [done|].
  rewrite IH. apply Permutation_swap.
Qed.

Lemma CreateDataProperty_NoDup (o : jsobj) (k : string) (v : jsval) :
  NoDup o.*1 → NoDup (CreateDataProperty o k v).*1.
Proof.
  intros Hnd. unfold CreateDataProperty.
  destruct (own o k) as [v'|] eqn:Hown.
  - by rewrite overwrite_keys.
  - rewrite place_perm. simpl. apply NoDup_cons. split; [|done].
    by apply own_None.
Qed.

(** However the members are written, the keys of the object are distinct. *)
Lemma JSON_object_NoDup (members : list (string * jsval)) :
  NoDup (JSON_object members).*1.
Proof.
  unfold JSON_object.
  induction members as [|e ms IH] using rev_ind; simpl; [constructor|].
  rewrite foldl_snoc. by apply CreateDataProperty_NoDup.
Qed.

Lemma key_precedes_index (k k' : string) (i j : N) :
  array_index k = Some i → array_index k' = Some j →
  key_precedes k k' = (i <? j)%N.
Proof. intros Hi Hj. unfold key_precedes. by rewrite Hi, Hj. Qed.

Lemma key_precedes_named (k k' : string) :
  array_index k = None → key_precedes k k' = false.
Proof. intros Hk. unfold key_precedes. by rewrite Hk. Qed.

Lemma place_named (k : string) (v : jsval) (o : jsobj) :
  array_index k = None → place k v o = o ++ [(k, v)].
Proof.
  intros Hk. induction o as [|[k' v'] o IH]; simpl; [done|].
  by rewrite (key_precedes_named k k' Hk), IH.
Qed.

Lemma place_before_named (k : string) (v : jsval) (idx named : jsobj) :
  is_Some (array_index k) →
  Forall (λ e, ¬ index_key e) named →
  place k v (idx ++ named) = place k v idx ++ named.
Proof.
  intros [i Hi] Hnamed. induction idx as [|[k' v'] idx IH]; simpl.
  - destruct named as [|[k' v'] named]; simpl; [done|].
    apply Forall_cons in Hnamed as [Hk' _].
    unfold key_precedes. rewrite Hi.
    destruct (array_index k') as [j|] eqn:Hj; [|done].
    exfalso. apply Hk'. unfold index_key. simpl. by rewrite Hj.
  - destruct (key_precedes k k'); [done|]. by rewrite IH.
Qed.

Lemma place_sorted (k : string) (v : jsval) (idx : jsobj) :
  is_Some (array_index k) →
  Forall index_key idx →
  StronglySorted not_before idx →
  StronglySorted not_before (place k v idx).
Proof.
  intros [i Hi] Hidx Hsorted.
  induction idx as [|[k' v'] idx IH]; simpl.
  - repeat constructor.
  - apply Forall_cons in Hidx as [[j Hj] Hidx]. simpl in Hj.
    apply StronglySorted_inv in Hsorted as [Hsorted Hhead].
    destruct (key_precedes k k') eqn:Hkk'.
    + constructor; [by constructor|].
      rewrite (key_precedes_index k k' i j Hi Hj) in Hkk'.
      apply N.ltb_lt in Hkk'.
      constructor.
      * unfold not_before. simpl.
        rewrite (key_precedes_index k' k j i Hj Hi). apply N.ltb_ge. lia.
      * rewrite Forall_forall in Hhead, Hidx |- *.
        intros [k'' v''] Hin.
        destruct (Hidx _ Hin) as [j'' Hj'']. simpl in Hj''.
        specialize (Hhead _ Hin). unfold not_before in Hhead |- *.
        simpl in Hhead |- *.
        rewrite (key_precedes_index k'' k' j'' j Hj'' Hj) in Hhead.
        rewrite (key_precedes_index k'' k j'' i Hj'' Hi).
        apply N.ltb_ge in Hhead. apply N.ltb_ge. lia.
    + constructor; [by apply IH|].
      rewrite place_perm. by constructor.
Qed.

(** The enumeration order of an object written with distinct keys: the
    entries with an array-index key, never descending, and after them the
    other entries in the order they were written. *)
Lemma JSON_object_order (members : list (string * jsval)) :
  NoDup members.*1 →
  ∃ idx,
    JSON_object members = idx ++ filter (λ e, ¬ index_key e) members ∧
    idx ≡ₚ filter index_key members ∧
    StronglySorted not_before idx.
Proof.
  unfold JSON_object.
  induction members as [|[k v] ms IH] using rev_ind; intros Hnd.
  { exists []. repeat split; constructor. }
  rewrite fmap_app in Hnd. apply NoDup_app in Hnd as (Hnd & Hk & _).
  destruct (IH Hnd) as (idx & Ho & Hperm & Hsorted).
  rewrite foldl_snoc, Ho. simpl.
  assert (Hfresh : own (idx ++ filter (λ e, ¬ index_key e) ms) k = None).
  { apply own_None. rewrite Hperm, filter_app_complement.
    intros Hin. apply (Hk k Hin). simpl. left. }
  unfold CreateDataProperty. rewrite Hfresh. rewrite !filter_app.
  destruct (array_index k) as [i|] eqn:Hi.
  - assert (Hik : index_key (k, v)) by (unfold index_key; simpl; by rewrite Hi).
    rewrite (filter_cons_True index_key), (filter_cons_False (λ e, ¬ index_key e))
      by (by try (intros Hn; apply Hn)).
    rewrite !filter_nil, app_nil_r.
    exists (place k v idx). split; [|split].
    + apply place_before_named; [by rewrite Hi|].
      apply Forall_forall. by intros e [He _]%list_elem_of_filter.
    + rewrite place_perm, Hperm. by rewrite Permutation_cons_append.
    + apply place_sorted; [by rewrite Hi| |done].
      rewrite Hperm. apply Forall_forall. by intros e [He _]%list_elem_of_filter.
  - assert (Hik : ¬ index_key (k, v)).
    { unfold index_key. simpl. rewrite Hi. by intros [? ?]. }
    rewrite (filter_cons_False index_key), (filter_cons_True (λ e, ¬ index_key e))
      by done.
    rewrite !filter_nil, app_nil_r.
    exists idx. split; [|done].
    rewrite (place_named k v _ Hi). by rewrite <- app_assoc.
Qed.

Lemma filter_index_key_named (l : list (string * jsval)) :
  Forall (λ e, ¬ index_key e) l →
  filter index_key l = [] ∧ filter (λ e, ¬ index_key e) l = l.
Proof.
  induction 1 as [|e l He _ [IH1 IH2]]; [done|].
  rewrite filter_cons_False, filter_cons_True by done. by rewrite IH1, IH2.
Qed.

(** Written without array-index keys and without repeated keys, an object
    enumerates its members as written. *)
Lemma JSON_object_as_written (members : list (string * jsval)) :
  NoDup members.*1 → Forall (λ e, ¬ index_key e) members →
  JSON_object members = members.
Proof.
  intros Hnd Hnamed.
  destruct (JSON_object_order members Hnd) as (idx & -> & Hperm & _).
  destruct (filter_index_key_named members Hnamed) as [Hnone Hall].
  rewrite Hnone in Hperm. apply Permutation_nil_r in Hperm as ->.
  by rewrite Hall.
Qed.

(** ** The inverse mapping and the parallel sequences *)

Lemma processed_fields_default (domain : string) (raw : raw_config) :
  let o := default [] (raw_SLUG_TO_PAGE raw) in
  let c := processConfigurationObject domain raw in
  slugs c = (valid_entries o).*1 ∧ pages c = (valid_entries o).*2 ∧
  PAGE_TO_SLUG c = foldl (λ m e, assign m e.2 e.1) ∅ (valid_entries o).
Proof.
  unfold processConfigurationObject. simpl. by rewrite foldl_visit_entry.
Qed.

Lemma valid_entries_elem (o : jsobj) (s p : string) :
  (s, p) ∈ valid_entries o ↔ (s, JStr p) ∈ o ∧ p ≠ "".
Proof.
  unfold valid_entries. rewrite list_elem_of_omap. split.
  - intros ([k v] & Hin & Hv). simpl in Hv.
    destruct (valid_page v) as [q|] eqn:Hq; [|done].
    injection Hv as <- <-. apply valid_page_Some in Hq as [-> Hne]. done.
  - intros [Hin Hne]. exists (s, JStr p). split; [done|]. simpl.
    apply String.eqb_neq in Hne. by rewrite Hne.
Qed.

Lemma valid_entries_own (o : jsobj) (s p : string) :
  NoDup o.*1 →
  (s, p) ∈ valid_entries o ↔ own o s = Some (JStr p) ∧ p ≠ "".
Proof.
  intros Hnd. rewrite valid_entries_elem. split.
  - intros [Hin Hne]. split; [|done]. by apply own_NoDup.
  - intros [Hown Hne]. split; [|done]. by apply own_elem.
Qed.

Lemma lookup_fst_snd (l : list (string * string)) (i : nat) (s p : string) :
  l.*1 !! i = Some s → l.*2 !! i = Some p → l !! i = Some (s, p).
Proof.
  rewrite !list_lookup_fmap.
  destruct (l !! i) as [[s' p']|]; simpl; [|done]. by intros [= ->] [= ->].
Qed.

(** C1, as stated, fails in three ways.  Two slugs of one page leave the
    earlier slug without an inverse entry; a slug that is an array index
    is listed before slugs written earlier; and no entry is created for
    the page id [__proto__]. *)
Lemma derived_fields_not_as_stated :
  (own (JSON_object [("", JStr Example.home_id); ("home", JStr Example.home_id)]) ""
     = Some (JStr Example.home_id) ∧
   PAGE_TO_SLUG (Example.resolved [("", JStr Example.home_id);
                                   ("home", JStr Example.home_id)])
     !! Example.home_id = Some "home") ∧
  (slugs (Example.resolved [("about", JStr Example.about_id);
                            ("2024", JStr Example.home_id)])
     = ["2024"; "about"] ∧
   pages (Example.resolved [("about", JStr Example.about_id);
                            ("2024", JStr Example.home_id)])
     = [Example.home_id; Example.about_id]) ∧
  (pages (Example.resolved [("legacy", JStr "__proto__")]) = ["__proto__"] ∧
   PAGE_TO_SLUG (Example.resolved [("legacy", JStr "__proto__")])
     !! "__proto__" = None).
Proof. repeat split. Qed.

(** C1, amended.  For every raw configuration object, [slugs] and [pages]
    have equal length and are index-aligned ([slugs[i]] maps to [pages[i]]
    under [SLUG_TO_PAGE]); they list exactly the entries whose page id is a
    non-empty string, in the order in which [SLUG_TO_PAGE] enumerates them:
    keys that are array indices first, in ascending order, then the other
    keys as written, which is the declaration order when no slug is an
    array index.  [PAGE_TO_SLUG] maps each listed page id other than
    [__proto__] to the last slug listed for it; each of its entries is the
    inverse of a listed entry, and it is exactly the inverse of the listed
    entries when the listed page ids are pairwise distinct. *)
Theorem derived_fields_of_configuration
    (domain : string) (raw : raw_config) (members : list (string * jsval)) :
  default [] (raw_SLUG_TO_PAGE raw) = JSON_object members →
  let o := JSON_object members in
  let c := processConfigurationObject domain raw in
  length (slugs c) = length (pages c) ∧
  (∀ i s p, slugs c !! i = Some s → pages c !! i = Some p →
            own o s = Some (JStr p) ∧ p ≠ "") ∧
  (∀ s p, own o s = Some (JStr p) → p ≠ "" →
          ∃ i, slugs c !! i = Some s ∧ pages c !! i = Some p) ∧
  (slugs c = (valid_entries o).*1 ∧ pages c = (valid_entries o).*2) ∧
  (NoDup members.*1 →
   ∃ idx, o = idx ++ filter (λ e, ¬ index_key e) members ∧
          idx ≡ₚ filter index_key members ∧
          StronglySorted not_before idx) ∧
  (NoDup members.*1 → Forall (λ e, ¬ index_key e) members →
   slugs c = (valid_entries members).*1 ∧ pages c = (valid_entries members).*2) ∧
  (∀ p s, PAGE_TO_SLUG c !! p = Some s ↔
          p ≠ "__proto__" ∧ last_slug_of (valid_entries o) p = Some s) ∧
  (∀ p s, PAGE_TO_SLUG c !! p = Some s → own o s = Some (JStr p) ∧ p ≠ "") ∧
  (∀ p, p ∈ pages c → p ≠ "__proto__" → is_Some (PAGE_TO_SLUG c !! p)) ∧
  (NoDup (pages c) →
   ∀ p s, p ≠ "__proto__" →
          (PAGE_TO_SLUG c !! p = Some s ↔ own o s = Some (JStr p) ∧ p ≠ "")).
Proof.
  intros Hraw o c.
  destruct (processed_fields_default domain raw) as (Hs & Hp & Hm).
  rewrite Hraw in Hs, Hp, Hm. fold o c in Hs, Hp, Hm.
  pose proof (JSON_object_NoDup members) as Hnd. fold o in Hnd.
  assert (Hlookup : ∀ p s, PAGE_TO_SLUG c !! p = Some s ↔
            p ≠ "__proto__" ∧ last_slug_of (valid_entries o) p = Some s).
  { intros p s. rewrite Hm, foldl_assign_lookup, lookup_empty.
    destruct (String.eqb_spec p "__proto__") as [E|E].
    - split; [done|by intros [? _]].
    - destruct (last_slug_of (valid_entries o) p); split; try done.
      + by intros [_ ?].
      + by intros [_ ?]. }
  assert (Hsound : ∀ p s, PAGE_TO_SLUG c !! p = Some s →
            own o s = Some (JStr p) ∧ p ≠ "").
  { intros p s [_ Hl%last_slug_of_elem]%Hlookup.
    by apply valid_entries_own in Hl. }
  assert (Haligned : ∀ i s p, slugs c !! i = Some s → pages c !! i = Some p →
            own o s = Some (JStr p) ∧ p ≠ "").
  { intros i s p Hi1 Hi2. rewrite Hs in Hi1. rewrite Hp in Hi2.
    pose proof (lookup_fst_snd _ _ _ _ Hi1 Hi2) as Hi.
    apply list_elem_of_lookup_2 in Hi. by apply valid_entries_own in Hi. }
  split; [by rewrite Hs, Hp, !length_fmap|].
  split; [done|].
  split.
  { intros s p Hown Hne.
    assert (Hin : (s, p) ∈ valid_entries o) by (by apply valid_entries_own).
    apply list_elem_of_lookup_1 in Hin as [i Hi]. exists i.
    by rewrite Hs, Hp, !list_lookup_fmap, Hi. }
  split; [done|].
  split; [intros Hmem; by apply JSON_object_order|].
  split.
  { intros Hmem Hnamed. subst o.
    rewrite Hs, Hp. by rewrite (JSON_object_as_written members). }
  split; [done|].
  split; [done|].
  split.
  { intros p Hin Hne. rewrite Hp in Hin.
    destruct (last_slug_of_is_Some _ _ Hin) as [s Hl].
    exists s. by apply Hlookup. }
  intros Hdistinct p s Hne. split; [by apply Hsound|].
  intros [Hown Hp']. apply Hlookup. split; [done|].
  apply last_slug_of_unique; [by rewrite <- Hp|].
  by apply valid_entries_own.
Qed.

Lemma derived_fields_of_configuration_witness :
  length (slugs Example.ex_com) = length (pages Example.ex_com) ∧
  PAGE_TO_SLUG Example.ex_com !! Example.about_id = Some "about".
Proof.
  destruct (derived_fields_of_configuration "ex.com"
              (Example.raw_of
                 (Some (JSON_object [("", JStr Example.home_id);
                                     ("about", JStr Example.about_id)])))
              [("", JStr Example.home_id); ("about", JStr Example.about_id)]
              eq_refl)
    as (Hlen & _ & _ & _ & _ & _ & _ & _ & _ & Hinverse).
  split; [exact Hlen|].
  apply Hinverse.
  - apply (bool_decide_unpack _). reflexivity.
  - discriminate.
  - split; [reflexivity|discriminate].
Defined.

(** ** Targets of the other slugs *)

(** The redirect of a slug other than the root leads to a page that is
    served: when the page id is a 32-hex-digit string that is not itself a
    key of [SLUG_TO_PAGE], a request for [/<pageId>] is handed to the
    content handler. *)
Lemma slug_target_is_served
    (r : request) (domain : string) (raw : raw_config) (o : jsobj) (slug pageId : string) :
  raw_SLUG_TO_PAGE raw = Some o → NoDup o.*1 →
  own o slug = Some (JStr pageId) →
  notionPageIdPattern_test pageId = true → own o pageId = None →
  method r ≠ "OPTIONS" → Str.slice1 (pathname (request_url r)) = pageId →
  dispatch r (processConfigurationObject domain raw) =
    inr (handleHtmlContent
           {| protocol := protocol (request_url r);
              hostname := MY_NOTION_USERNAME +:+ ".notion.site";
              pathname := pathname (request_url r);
              search := search (request_url r) |} r).
Proof.
  intros Ho Hnd Hslug Hpat Hfree Hm Hseg.
  set (c := processConfigurationObject domain raw).
  assert (Hin : pageId ∈ pages c).
  { destruct (processed_fields domain raw o Ho) as (_ & Hp & _).
    fold c in Hp. rewrite Hp. apply list_elem_of_fmap. exists (slug, pageId).
    split; [done|]. apply valid_entries_own; [done|]. split; [done|].
    apply String.eqb_neq. by apply pattern_nonempty. }
  rewrite <- Hseg in Hpat, Hfree, Hin.
  rewrite dispatch_pattern_path by done.
  unfold handleSlugRedirection.
  assert (HS : SLUG_TO_PAGE c = Some o) by done. rewrite HS.
  rewrite (Get_pattern_key o _ Hpat), Hfree. simpl.
  unfold handleUnknownPageRedirection.
  by rewrite Hpat, bool_decide_eq_true_2.
Qed.

(** * Further properties of the resolver and the dispatcher *)

(** ** Hostnames *)

Lemma dispatch_ignores_hostname (r : request) (h : string) (c : config) :
  dispatch (with_hostname r h) c = dispatch r c.
Proof. reflexivity. Qed.

Lemma strip_www_prefixed (h : string) : strip_www ("www." +:+ h) = h.
Proof. reflexivity. Qed.

(** X1.  A request to [www.<host>] is answered exactly as the same request
    to [<host>], and leaves the same state behind, for every host that
    does not itself begin with [www.]. *)
Theorem www_prefix_is_ignored
    (JSON_parse : string → parsed) (r : request) (w : world) (h : string) :
  strip_www h = h →
  fetchAndApply JSON_parse (with_hostname r ("www." +:+ h)) w =
  fetchAndApply JSON_parse (with_hostname r h) w.
Proof.
  intros Hh.
  assert (H1 : strip_www (hostname (request_url
                 (with_hostname r ("www." +:+ h)))) = h)
    by apply strip_www_prefixed.
  assert (H2 : strip_www (hostname (request_url (with_hostname r h))) = h)
    by exact Hh.
  unfold fetchAndApply. rewrite H1, H2.
  destruct (getDomainConfig JSON_parse h w) as [[c|] w']; [|done].
  by rewrite !dispatch_ignores_hostname.
Qed.

Lemma www_prefix_is_ignored_witness :
  fetchAndApply Example.parse_braces
    (with_hostname (Example.GET "/about") ("www." +:+ "ex.com"))
    {| DOMAINS_CONFIG := ∅;
       domainConfigCache := {["ex.com" := Some Example.ex_com]} |} =
  fetchAndApply Example.parse_braces
    (with_hostname (Example.GET "/about") "ex.com")
    {| DOMAINS_CONFIG := ∅;
       domainConfigCache := {["ex.com" := Some Example.ex_com]} |}.
Proof.
  apply (www_prefix_is_ignored Example.parse_braces (Example.GET "/about")).
  reflexivity.
Defined.

(** ** The cache *)

(** X2.  Once a hostname has resolved to a configuration, every later
    resolution of it returns that configuration and changes nothing,
    whatever the store holds by then: the store is not read again. *)
Theorem resolved_configuration_is_kept
    (JSON_parse : string → parsed) (host : string) (w w1 : world) (c : config) :
  getDomainConfig JSON_parse host w = (Some c, w1) →
  ∀ store : gmap string string,
    getDomainConfig JSON_parse host
      {| DOMAINS_CONFIG := store; domainConfigCache := domainConfigCache w1 |} =
    (Some c,
     {| DOMAINS_CONFIG := store; domainConfigCache := domainConfigCache w1 |}).
Proof.
  intros Hres store. apply getDomainConfig_hit. simpl.
  destruct (getDomainConfig_cases JSON_parse host w)
    as [(c' & Hc & E)|[(_ & _ & E)|(data & value & _ & _ & _ & _ & E)]];
    rewrite E in Hres.
  - by injection Hres as -> <-.
  - discriminate Hres.
  - injection Hres as -> <-. simpl. by rewrite lookup_insert_eq.
Qed.

Lemma resolved_configuration_is_kept_witness :
  getDomainConfig Example.parse_braces "www.ex.com"
    {| DOMAINS_CONFIG := {["ex.com" := "not json"]};
       domainConfigCache :=
         {["ex.com" := Some (processConfigurationObject "ex.com" (Example.raw_of None))]} |} =
  (Some (processConfigurationObject "ex.com" (Example.raw_of None)),
   {| DOMAINS_CONFIG := {["ex.com" := "not json"]};
      domainConfigCache :=
        {["ex.com" := Some (processConfigurationObject "ex.com" (Example.raw_of None))]} |}).
Proof.
  assert (Hfirst :
    getDomainConfig Example.parse_braces "www.ex.com"
      {| DOMAINS_CONFIG := {["ex.com" := "{}"]}; domainConfigCache := ∅ |} =
    (Some (processConfigurationObject "ex.com" (Example.raw_of None)),
     {| DOMAINS_CONFIG := {["ex.com" := "{}"]};
        domainConfigCache :=
          {["ex.com" :=
              Some (processConfigurationObject "ex.com" (Example.raw_of None))]} |}))
    by reflexivity.
  exact (resolved_configuration_is_kept Example.parse_braces "www.ex.com"
           _ _ _ Hfirst {["ex.com" := "not json"]}).
Defined.

(** X3.  A resolution never writes the store, never removes or replaces a
    cache entry, and touches no entry but the one of the normalized
    hostname. *)
Theorem resolution_frame
    (JSON_parse : string → parsed) (host : string) (w : world) :
  let w1 := (getDomainConfig JSON_parse host w).2 in
  DOMAINS_CONFIG w1 = DOMAINS_CONFIG w ∧
  domainConfigCache w ⊆ domainConfigCache w1 ∧
  ∀ k, k ≠ strip_www host →
       domainConfigCache w1 !! k = domainConfigCache w !! k.
Proof.
  destruct (getDomainConfig_cases JSON_parse host w)
    as [(c' & Hc & E)|[(_ & _ & E)|(data & raw & Hmiss & _ & _ & _ & E)]];
    rewrite E; simpl; try done.
  split; [done|]. split.
  - by apply insert_subseteq.
  - intros k Hk. by rewrite lookup_insert_ne.
Qed.

Lemma getDomainConfig_keyed
    (JSON_parse : string → parsed) (host : string) (w w1 : world) (res : option config) :
  cache_keyed w →
  getDomainConfig JSON_parse host w = (res, w1) →
  cache_keyed w1 ∧
  ∀ c, res = Some c → MY_DOMAIN c = strip_www host ∨ c = primitive_config.
Proof.
  intros Hkeyed Hres.
  destruct (getDomainConfig_cases JSON_parse host w)
    as [(c' & Hc & E)|[(_ & _ & E)|(data & value & Hmiss & _ & _ & Hv & E)]];
    rewrite E in Hres; injection Hres as <- <-.
  - split; [done|]. intros c ->. by apply Hkeyed.
  - by split.
  - assert (∀ c, value = Some c →
                 MY_DOMAIN c = strip_www host ∨ c = primitive_config) as Hvalue.
    { intros c ->. destruct Hv as [(raw & _ & [= ->])|(p & _ & Hp)]; [by left|].
      right. unfold processed_primitive in Hp.
      destruct (primitive_truthy p); [by injection Hp as ->|done]. }
    split; [|done].
    intros k c. simpl. intros [[<- Hc]|[_ Hk]]%lookup_insert_Some.
    + by apply Hvalue.
    + by apply Hkeyed.
Qed.

(** X4.  Every truthy value in the cache is a configuration that carries
    the hostname it is cached under, or a primitive, which carries none.
    A resolution preserves this, and what it returns is a configuration
    that carries the normalized hostname of the request, so that
    redirects, robots and sitemap name that host, or a primitive. *)
Theorem cache_entries_carry_their_hostname
    (JSON_parse : string → parsed) (host : string) (w : world) :
  cache_keyed w →
  cache_keyed (getDomainConfig JSON_parse host w).2 ∧
  ∀ c, (getDomainConfig JSON_parse host w).1 = Some c →
       MY_DOMAIN c = strip_www host ∨ c = primitive_config.
Proof.
  intros Hkeyed.
  destruct (getDomainConfig JSON_parse host w) as [res w1] eqn:E.
  by apply (getDomainConfig_keyed JSON_parse host w).
Qed.

Lemma cache_entries_carry_their_hostname_witness :
  (MY_DOMAIN (processConfigurationObject "ex.com" (Example.raw_of None)) =
     strip_www "www.ex.com" ∨
   processConfigurationObject "ex.com" (Example.raw_of None) = primitive_config) ∧
  (MY_DOMAIN primitive_config = strip_www "www.ex.com" ∨
   primitive_config = primitive_config).
Proof.
  assert (Hkeyed : ∀ store,
            cache_keyed {| DOMAINS_CONFIG := store; domainConfigCache := ∅ |}).
  { intros store k c. simpl. rewrite lookup_empty. discriminate. }
  split.
  - apply (proj2 (cache_entries_carry_their_hostname Example.parse_numbers
                    "www.ex.com" _ (Hkeyed {["ex.com" := "{}"]}))).
    reflexivity.
  - apply (proj2 (cache_entries_carry_their_hostname Example.parse_numbers
                    "www.ex.com" _ (Hkeyed {["ex.com" := "42"]}))).
    reflexivity.
Defined.

(** The robots document of a stored number names no host. *)
Example robots_of_a_stored_number :
  (fetchAndApply Example.parse_numbers (Example.GET "/robots.txt")
     {| DOMAINS_CONFIG := {["ex.com" := "42"]}; domainConfigCache := ∅ |}).1 =
  Respond
    {| status := 200;
       headers := [("Content-Type", "text/plain")];
       body := Some ("User-agent: *" +:+ Str.newline +:+ "Allow: /" +:+
                     Str.newline +:+ Str.newline +:+
                     "Sitemap: https://undefined/sitemap.xml") |}.
Proof. reflexivity. Qed.

(** ** A configuration without [SLUG_TO_PAGE] *)

Lemma dispatch_throws (r : request) (c : config) (e : thrown) :
  dispatch r c = inl e →
  SLUG_TO_PAGE c = None ∧ answered_before_redirects r = false ∧
  e = TypeError ("Cannot read properties of undefined (reading '" +:+
                 Str.slice1 (pathname (request_url r)) +:+ "')").
Proof.
  destruct (answered_before_redirects r) eqn:Hsp.
  - unfold answered_before_redirects in Hsp. unfold dispatch.
    destruct (String.eqb (method r) "OPTIONS"); [done|].
    destruct (String.eqb (pathname (request_url r)) "/robots.txt"); [done|].
    destruct (String.eqb (pathname (request_url r)) "/sitemap.xml"); [done|].
    destruct (String.eqb (pathname (request_url r)) "/health"); [done|].
    destruct (String.eqb (pathname (request_url r)) "/_health"); [done|].
    destruct (Str.startsWith (pathname (request_url r)) "/app" &&
              Str.endsWith (pathname (request_url r)) ".js"); [done|].
    destruct (Str.startsWith (pathname (request_url r)) "/api"); done.
  - rewrite dispatch_redirect_steps by done.
    unfold handleSlugRedirection.
    destruct (SLUG_TO_PAGE c) as [o|].
    + destruct (property_truthy _); [done|].
      by destruct (handleUnknownPageRedirection _ _).
    + by intros [= <-].
Qed.

(** The answers that the dispatcher builds itself. *)
Lemma dispatch_respond_cases (r : request) (c : config) (resp : response) :
  dispatch r c = inr (Respond resp) →
  resp = handleCorsPreflightRequest r ∨
  resp = generateRobotsTxt c ∨
  resp = generateSitemapResponse c ∨
  resp = {| status := 200; headers := [("Content-Type", "text/plain")];
            body := Some "OK" |} ∨
  ∃ rest,
    SLUG_TO_PAGE c ≠ None ∧
    resp = Response_redirect ("https://" +:+ MY_DOMAIN c +:+ "/" +:+ rest) 301.
Proof.
  unfold dispatch.
  destruct (String.eqb (method r) "OPTIONS"); [intros [= <-]; by left|].
  destruct (String.eqb (pathname (request_url r)) "/robots.txt");
    [intros [= <-]; right; by left|].
  destruct (String.eqb (pathname (request_url r)) "/sitemap.xml");
    [intros [= <-]; right; right; by left|].
  destruct (String.eqb (pathname (request_url r)) "/health" ||
            String.eqb (pathname (request_url r)) "/_health");
    [intros [= <-]; right; right; right; by left|].
  destruct (Str.startsWith (pathname (request_url r)) "/app" &&
            Str.endsWith (pathname (request_url r)) ".js"); [done|].
  destruct (Str.startsWith (pathname (request_url r)) "/api"); [done|].
  intros H. right; right; right; right. revert H.
  unfold handleSlugRedirection.
  destruct (SLUG_TO_PAGE c) as [o|]; [|done].
  destruct (property_truthy _).
  - intros [= <-]. destruct (String.eqb _ ""); [|by eexists].
    by exists "".
  - unfold handleUnknownPageRedirection.
    destruct (_ && _); [|done]. intros [= <-].
    by exists "".
Qed.

Lemma dispatch_respond_status (r : request) (c : config) (resp : response) :
  dispatch r c = inr (Respond resp) → status resp ∈ [200; 204; 301; 405].
Proof.
  intros [->|[->|[->|[->|[rest [_ ->]]]]]]%dispatch_respond_cases;
    rewrite !elem_of_cons; simpl; auto.
  unfold handleCorsPreflightRequest. destruct (_ && _); simpl; auto.
Qed.

(** X5.  A request fails with the 500 that reports a property read of
    [undefined] exactly when the resolved configuration lacks
    [SLUG_TO_PAGE] and the request reaches the redirect handlers; such a
    configuration resolves with empty derived fields and an empty
    sitemap. *)
Theorem configuration_without_mapping
    (JSON_parse : string → parsed) (r : request) (w w' : world) (c : config) :
  getDomainConfig JSON_parse (strip_www (hostname (request_url r))) w = (Some c, w') →
  ((SLUG_TO_PAGE c = None ∧ answered_before_redirects r = false) ↔
   fetchAndApply JSON_parse r w =
     (Respond
        {| status := 500;
           headers := [("Content-Type", "text/plain")];
           body := Some ("Internal Server Error: " +:+
                         "Cannot read properties of undefined (reading '" +:+
                         Str.slice1 (pathname (request_url r)) +:+ "')") |},
      w')) ∧
  (∀ domain raw,
     c = processConfigurationObject domain raw → raw_SLUG_TO_PAGE raw = None →
     slugs c = [] ∧ pages c = [] ∧ PAGE_TO_SLUG c = ∅ ∧
     generateSitemap c = sitemap_head +:+ sitemap_foot).
Proof.
  intros Hc. split.
  - unfold fetchAndApply. rewrite Hc. split.
    + intros [Hnone Hsp]. rewrite dispatch_redirect_steps by done.
      unfold handleSlugRedirection. by rewrite Hnone.
    + destruct (dispatch r c) as [[msg]|o] eqn:Hd.
      * intros _. by apply dispatch_throws in Hd as (? & ? & _).
      * intros [= ->]. exfalso.
        apply dispatch_respond_status in Hd. simpl in Hd.
        rewrite !elem_of_cons, elem_of_nil in Hd.
        by destruct Hd as [?|[?|[?|[?|?]]]].
  - intros domain raw -> Hnone.
    unfold processConfigurationObject, generateSitemap. rewrite Hnone. done.
Qed.

Lemma configuration_without_mapping_witness :
  fetchAndApply Example.parse_braces (Example.GET "/about")
    {| DOMAINS_CONFIG := ∅;
       domainConfigCache :=
         {["ex.com" := Some (processConfigurationObject "ex.com" (Example.raw_of None))]} |} =
  (Respond
     {| status := 500;
        headers := [("Content-Type", "text/plain")];
        body := Some "Internal Server Error: Cannot read properties of undefined (reading 'about')" |},
   {| DOMAINS_CONFIG := ∅;
      domainConfigCache :=
        {["ex.com" := Some (processConfigurationObject "ex.com" (Example.raw_of None))]} |}).
Proof.
  assert (Hc :
    getDomainConfig Example.parse_braces
      (strip_www (hostname (request_url (Example.GET "/about"))))
      {| DOMAINS_CONFIG := ∅;
         domainConfigCache :=
           {["ex.com" :=
               Some (processConfigurationObject "ex.com" (Example.raw_of None))]} |} =
    (Some (processConfigurationObject "ex.com" (Example.raw_of None)),
     {| DOMAINS_CONFIG := ∅;
        domainConfigCache :=
          {["ex.com" :=
              Some (processConfigurationObject "ex.com" (Example.raw_of None))]} |}))
    by reflexivity.
  apply (proj1 (proj1 (configuration_without_mapping Example.parse_braces
                         (Example.GET "/about") _ _ _ Hc))).
  split; reflexivity.
Defined.

(** ** What the dispatcher answers and what it forwards *)

(** X6.  With a cache that keeps configurations under their hostnames,
    every answer with a [Location] header that [fetchAndApply] builds
    itself is a 301 to a URL on the normalized host of the request: the
    worker's own redirects never lead to another host.  (What the upstream
    answers to a page fetch is passed on with the upstream's headers and
    is not an answer of this kind.) *)
Theorem redirects_stay_on_the_host
    (JSON_parse : string → parsed) (r : request) (w w' : world) (resp : response) :
  cache_keyed w →
  fetchAndApply JSON_parse r w = (Respond resp, w') →
  headers_get (headers resp) "Location" ≠ None →
  ∃ rest,
    resp = Response_redirect
             ("https://" +:+ strip_www (strip_www (hostname (request_url r))) +:+
              "/" +:+ rest) 301.
Proof.
  intros Hkeyed. unfold fetchAndApply.
  destruct (getDomainConfig JSON_parse _ w) as [[c|] w1] eqn:Hc.
  2: { intros [= <- <-]. simpl. by intros H. }
  destruct (getDomainConfig_keyed JSON_parse _ w w1 (Some c) Hkeyed Hc)
    as [_ Hdom].
  specialize (Hdom c eq_refl).
  destruct (dispatch r c) as [[msg]|o] eqn:Hd.
  { intros [= <- <-]. simpl. by intros H. }
  intros [= -> <-].
  apply dispatch_respond_cases in Hd as [->|[->|[->|[->|[rest [Hmap ->]]]]]].
  - unfold handleCorsPreflightRequest. destruct (_ && _); simpl; by intros H.
  - simpl. by intros H.
  - simpl. by intros H.
  - simpl. by intros H.
  - intros _. exists rest. destruct Hdom as [Hdom| ->]; [by rewrite Hdom|].
    by destruct Hmap.
Qed.

Lemma redirects_stay_on_the_host_witness :
  ∃ rest,
    Response_redirect "https://ex.com/b2b2b2b2b2b2b2b2b2b2b2b2b2b2b2b2" 301 =
    Response_redirect ("https://" +:+ "ex.com" +:+ "/" +:+ rest) 301.
Proof.
  assert (Hkeyed : cache_keyed
            {| DOMAINS_CONFIG := ∅;
               domainConfigCache := {["ex.com" := Some Example.ex_com]} |}).
  { intros k c. simpl. intros [<- [= <-]]%lookup_singleton_Some. by left. }
  apply (redirects_stay_on_the_host Example.parse_braces
           (Example.request_to "GET" "www.ex.com" "/about" [])
           {| DOMAINS_CONFIG := ∅;
              domainConfigCache := {["ex.com" := Some Example.ex_com]} |}
           {| DOMAINS_CONFIG := ∅;
              domainConfigCache := {["ex.com" := Some Example.ex_com]} |}
           _ Hkeyed).
  - reflexivity.
  - discriminate.
Defined.

(** X7.  Whatever the request, a call to the upstream goes to the upstream
    account's host with the path and query of the request; a page fetch
    forwards the method, the headers and the body of the request as they
    are, and a script fetch happens only for a path [/app….js]. *)
Theorem upstream_calls_keep_the_path
    (JSON_parse : string → parsed) (r : request) (w : world) :
  match (fetchAndApply JSON_parse r w).1 with
  | Respond _ => True
  | JavaScriptAssets target =>
      target = upstream_url r ∧
      Str.startsWith (pathname (request_url r)) "/app" = true ∧
      Str.endsWith (pathname (request_url r)) ".js" = true
  | ApiRequests target _ => target = upstream_url r
  | HtmlContent target init =>
      target = upstream_url r ∧
      init = {| init_method := method r;
                init_headers := request_headers r;
                init_body := Some (request_body r) |}
  end.
Proof.
  unfold fetchAndApply.
  destruct (getDomainConfig JSON_parse _ w) as [[c|] w1]; [|done].
  destruct (dispatch r c) as [[msg]|o] eqn:Hd; [done|]. simpl.
  revert Hd. unfold dispatch.
  destruct (String.eqb (method r) "OPTIONS"); [by intros [= <-]|].
  destruct (String.eqb (pathname (request_url r)) "/robots.txt");
    [by intros [= <-]|].
  destruct (String.eqb (pathname (request_url r)) "/sitemap.xml");
    [by intros [= <-]|].
  destruct (String.eqb (pathname (request_url r)) "/health" ||
            String.eqb (pathname (request_url r)) "/_health");
    [by intros [= <-]|].
  destruct (Str.startsWith (pathname (request_url r)) "/app" &&
            Str.endsWith (pathname (request_url r)) ".js") eqn:Happ.
  { intros [= <-]. apply andb_prop in Happ as [? ?]. by repeat split. }
  destruct (Str.startsWith (pathname (request_url r)) "/api").
  { intros [= <-]. unfold handleApiRequests. reflexivity. }
  destruct (handleSlugRedirection (request_url r) c) as [|[resp|]];
    [done|by intros [= <-]|].
  destruct (handleUnknownPageRedirection (request_url r) c);
    [by intros [= <-]|].
  intros [= <-]. by split.
Qed.

(** ** Robots and sitemap *)

Lemma strip_prefix_app (pre rest : string) :
  strip_prefix pre (pre +:+ rest) = Some rest.
Proof.
  induction pre as [|a pre IH]; [by destruct rest|].
  rewrite append_cons. simpl. by rewrite Ascii.eqb_refl.
Qed.

(** X8.  The robots document that a request for [/robots.txt] gets ends
    with a [Sitemap:] line whose URL is on the configured domain, and a
    request for the path of that URL gets the sitemap of the same
    configuration. *)
Theorem robots_advertise_the_sitemap (r r' : request) (c : config) :
  method r ≠ "OPTIONS" → pathname (request_url r) = "/robots.txt" →
  method r' ≠ "OPTIONS" →
  ∃ preamble location path,
    dispatch r c =
      inr (Respond {| status := 200;
                      headers := [("Content-Type", "text/plain")];
                      body := Some (preamble +:+ "Sitemap: " +:+ location) |}) ∧
    location_path c location = Some path ∧
    (pathname (request_url r') = path →
     dispatch r' c =
       inr (Respond {| status := 200;
                       headers := [("Content-Type", "application/xml")];
                       body := Some (generateSitemap c) |})).
Proof.
  intros Hm Hp Hm'.
  exists ("User-agent: *" +:+ Str.newline +:+ "Allow: /" +:+ Str.newline +:+
          Str.newline),
         ("https://" +:+ MY_DOMAIN c +:+ "/sitemap.xml"), "/sitemap.xml".
  apply String.eqb_neq in Hm, Hm'.
  split; [|split].
  - unfold dispatch. by rewrite Hm, Hp.
  - unfold location_path.
    replace ("https://" +:+ MY_DOMAIN c +:+ "/sitemap.xml")
      with (("https://" +:+ MY_DOMAIN c) +:+ "/sitemap.xml")
      by (by rewrite append_assoc).
    apply strip_prefix_app.
  - intros Hp'. unfold dispatch. by rewrite Hm', Hp'.
Qed.

Lemma robots_advertise_the_sitemap_witness :
  ∃ preamble location path,
    dispatch (Example.GET "/robots.txt") Example.ex_com =
      inr (Respond {| status := 200;
                      headers := [("Content-Type", "text/plain")];
                      body := Some (preamble +:+ "Sitemap: " +:+ location) |}) ∧
    location_path Example.ex_com location = Some path ∧
    (pathname (request_url (Example.GET "/sitemap.xml")) = path →
     dispatch (Example.GET "/sitemap.xml") Example.ex_com =
       inr (Respond {| status := 200;
                       headers := [("Content-Type", "application/xml")];
                       body := Some (generateSitemap Example.ex_com) |})).
Proof.
  apply (robots_advertise_the_sitemap (Example.GET "/robots.txt")
           (Example.GET "/sitemap.xml") Example.ex_com);
    (discriminate || reflexivity).
Defined.

Lemma sitemap_loc_inj (domain : string) : Inj (=) (=) (sitemap_loc domain).
Proof.
  assert (Hroot : ∀ s, sitemap_loc domain s = sitemap_loc domain "" → s = "").
  { intros s. unfold sitemap_loc.
    destruct (String.eqb_spec s "") as [->|Hne]; [done|]. simpl.
    intros E. apply (append_cancel_empty ("https://" +:+ domain +:+ "/")).
    by rewrite !append_assoc. }
  intros s t E.
  destruct (String.eqb_spec s "") as [->|Hs]; [symmetry; by apply Hroot|].
  destruct (String.eqb_spec t "") as [->|Ht]; [by apply Hroot|].
  unfold sitemap_loc in E.
  apply String.eqb_neq in Hs, Ht. rewrite Hs, Ht in E.
  do 3 apply (inj (String.app _)) in E. exact E.
Qed.

Lemma valid_entries_keys_NoDup (o : jsobj) :
  NoDup o.*1 → NoDup (valid_entries o).*1.
Proof.
  induction o as [|[k v] o IH]; [done|].
  intros [Hk Hnd]%NoDup_cons. unfold valid_entries. simpl.
  destruct (valid_page v) as [p|]; simpl; [|by apply IH].
  apply NoDup_cons. split; [|by apply IH].
  intros ((k' & p') & -> & Hin)%list_elem_of_fmap. apply Hk.
  apply valid_entries_elem in Hin as [Hin _].
  apply list_elem_of_fmap. by exists (k', JStr p').
Qed.

(** X10.  A request is handed to the page handler exactly when no earlier
    route answers it, the configuration has a [SLUG_TO_PAGE] in which the
    path minus its first character has no truthy value, and that string is
    not a 32-hex-digit id missing from [pages]. *)
Theorem page_fetch_conditions (r : request) (c : config) :
  let seg := Str.slice1 (pathname (request_url r)) in
  (∃ target init, dispatch r c = inr (HtmlContent target init)) ↔
  answered_before_redirects r = false ∧
  (∃ o, SLUG_TO_PAGE c = Some o ∧ property_truthy (Get o seg) = false) ∧
  (notionPageIdPattern_test seg = true → seg ∈ pages c).
Proof.
  intros seg. split.
  - intros (target & init & Hd).
    destruct (answered_before_redirects r) eqn:Hsp.
    { exfalso. revert Hd. unfold answered_before_redirects in Hsp.
      unfold dispatch.
      destruct (String.eqb (method r) "OPTIONS"); [done|].
      destruct (String.eqb (pathname (request_url r)) "/robots.txt"); [done|].
      destruct (String.eqb (pathname (request_url r)) "/sitemap.xml"); [done|].
      destruct (String.eqb (pathname (request_url r)) "/health"); [done|].
      destruct (String.eqb (pathname (request_url r)) "/_health"); [done|].
      destruct (Str.startsWith (pathname (request_url r)) "/app" &&
                Str.endsWith (pathname (request_url r)) ".js"); [done|].
      destruct (Str.startsWith (pathname (request_url r)) "/api"); done. }
    split; [done|]. revert Hd.
    rewrite dispatch_redirect_steps by done.
    unfold handleSlugRedirection, handleUnknownPageRedirection. fold seg.
    destruct (SLUG_TO_PAGE c) as [o|]; [|done].
    destruct (property_truthy (Get o seg)) eqn:Ht; [done|].
    destruct (notionPageIdPattern_test seg); simpl.
    + destruct (bool_decide (seg ∈ pages c)) eqn:Hin; simpl; [|done].
      intros _. split; [by exists o|]. intros _. by apply in_list.
    + intros _. split; [by exists o|]. done.
  - intros (Hsp & (o & Ho & Ht) & Hpages).
    rewrite dispatch_redirect_steps by done.
    unfold handleSlugRedirection, handleUnknownPageRedirection. fold seg.
    rewrite Ho, Ht.
    destruct (notionPageIdPattern_test seg); simpl; [|by eexists _, _].
    rewrite bool_decide_eq_true_2 by (by apply Hpages). simpl.
    by eexists _, _.
Qed.

(** ** Answers built from the upstream's reply *)

Lemma Response_new_None (b : option string) (code : Z) (h : list (string * string)) :
  200 ≤ code ≤ 299 →
  Response_new b code h = None → (code = 204 ∨ code = 205) ∧ b ≠ None.
Proof.
  intros Hrange. unfold Response_new, null_body_status.
  destruct b as [text|]; [|done].
  destruct (Z.eqb_spec code 204) as [->|]; [by intros _; split; [left|]|].
  destruct (Z.eqb_spec code 205) as [->|]; [by intros _; split; [right|]|].
  destruct (Z.eqb_spec code 101), (Z.eqb_spec code 304); simpl; (lia || done).
Qed.

Lemma Response_new_Some
    (b : option string) (code : Z) (h : list (string * string)) (made : response) :
  Response_new b code h = Some made →
  status made = code ∧ headers made = h ∧ body made = b.
Proof.
  unfold Response_new. destruct b as [text|].
  - destruct (null_body_status code); [done|]. by intros [= <-].
  - by intros [= <-].
Qed.

Lemma headers_get_delete (h : list (string * string)) (name other : string) :
  Str.lower other = Str.lower name →
  headers_get (headers_delete h name) other = None.
Proof.
  unfold headers_get, headers_delete. intros ->.
  induction h as [|[k v] h IH]; simpl; [done|].
  destruct (String.eqb (Str.lower k) (Str.lower name)) eqn:E; simpl; [done|].
  by rewrite E.
Qed.

Lemma headers_get_delete_ne (h : list (string * string)) (name other : string) :
  Str.lower other ≠ Str.lower name →
  headers_get (headers_delete h name) other = headers_get h other.
Proof.
  intros Hne. unfold headers_get, headers_delete.
  assert (Hsame :
    List.filter (λ kv : string * string,
                   String.eqb (Str.lower kv.1) (Str.lower other))
      (List.filter (λ kv : string * string,
                      negb (String.eqb (Str.lower kv.1) (Str.lower name))) h) =
    List.filter (λ kv : string * string,
                   String.eqb (Str.lower kv.1) (Str.lower other)) h).
  { induction h as [|[k v] h IH]; simpl; [done|].
    destruct (String.eqb_spec (Str.lower k) (Str.lower name)) as [E|E]; simpl.
    - destruct (String.eqb_spec (Str.lower k) (Str.lower other)) as [E'|E'];
        [congruence|done].
    - destruct (String.eqb (Str.lower k) (Str.lower other)); by rewrite IH. }
  by rewrite Hsame.
Qed.

(** X11.  The page handler answers 500 when the upstream cannot be reached
    or answers outside 200-299 (or with a body on a 204 or 205, which no
    response has).  Otherwise the response it hands to the rewriter has
    the upstream's status and body, carries neither a
    [Content-Security-Policy] nor an [X-Content-Security-Policy] header in
    any letter case, and has every other header as the upstream sent it. *)
Theorem page_response_drops_csp_headers
    (applyHtmlEnhancements : response → config → response) (c : config) (up : fetched) :
  handleHtmlContent_response applyHtmlEnhancements c up =
    failure_response "Failed to load page content" ∧
  (up = FetchError ∨
   ∃ resp, up = Fetched resp ∧
           (response_ok resp = false ∨
            (status resp = 204 ∨ status resp = 205) ∧ body resp ≠ None))
  ∨
  ∃ resp enhanced,
    up = Fetched resp ∧ 200 ≤ status resp ≤ 299 ∧
    handleHtmlContent_response applyHtmlEnhancements c up =
      applyHtmlEnhancements enhanced c ∧
    status enhanced = status resp ∧ body enhanced = body resp ∧
    (∀ name,
       Str.lower name = "content-security-policy" ∨
       Str.lower name = "x-content-security-policy" →
       headers_get (headers enhanced) name = None) ∧
    ∀ name,
      Str.lower name ≠ "content-security-policy" →
      Str.lower name ≠ "x-content-security-policy" →
      headers_get (headers enhanced) name = headers_get (headers resp) name.
Proof.
  destruct up as [|resp]; [left; by split; [|left]|].
  unfold handleHtmlContent_response.
  destruct (response_ok resp) eqn:Hok; simpl.
  2: { left. split; [done|]. right. exists resp. split; [done|]. by left. }
  assert (200 ≤ status resp ≤ 299) as Hrange.
  { unfold response_ok in Hok. apply andb_prop in Hok as [H1 H2]. lia. }
  destruct (Response_new (body resp) (status resp) (headers resp))
    as [made|] eqn:Hnew.
  2: { left. split; [done|]. right. exists resp. split; [done|]. right.
       by apply Response_new_None in Hnew. }
  apply Response_new_Some in Hnew as (Hs & Hh & Hb).
  right. eexists resp, _. split; [done|]. split; [done|].
  split; [done|]. simpl. split; [done|]. split; [done|]. rewrite Hh. split.
  - intros name [H|H].
    + rewrite headers_get_delete_ne by (rewrite H; done).
      by apply headers_get_delete.
    + by apply headers_get_delete.
  - intros name H1 H2. by rewrite !headers_get_delete_ne.
Qed.

Lemma replace_from_absent (pat rep : string) (s before : string) :
  Str.includes s pat = false → replace_from pat rep before 0 s = s.
Proof.
  revert before. induction s as [|a s IH]; intros before; [done|].
  simpl. intros [Hp Hs]%orb_false_elim. rewrite Hp. by rewrite IH.
Qed.

Lemma rewrite_asset_absent (domain text : string) :
  Str.includes text "www.notion.so" = false →
  Str.includes text "notion.so" = false →
  Str.includes text "faeton.notion.site" = false →
  rewrite_asset domain text = text.
Proof.
  intros H1 H2 H3. unfold rewrite_asset, replace_all.
  rewrite (replace_from_absent "www.notion.so") by done.
  rewrite (replace_from_absent "notion.so") by done.
  by apply replace_from_absent.
Qed.

(** X12.  The script handler answers 500 when the upstream cannot be
    reached or answers outside 200-299 (or with a 204 or 205 whose text is
    not empty after the rewriting, which no upstream sends).  Otherwise it
    answers with the upstream's status and with its own fixed headers only
    (CORS, JavaScript content type, one-year cache): a 204 or 205 is
    answered without a body, and under any other status a script that
    mentions none of the three upstream hostnames is returned unchanged. *)
Theorem script_response (c : config) (up : fetched) :
  handleJavaScriptAssets_response c up =
    failure_response "Failed to load JavaScript asset" ∧
  (up = FetchError ∨
   ∃ resp, up = Fetched resp ∧
           (response_ok resp = false ∨
            (status resp = 204 ∨ status resp = 205) ∧
            rewrite_asset (MY_DOMAIN c) (default "" (body resp)) ≠ ""))
  ∨
  ∃ resp,
    up = Fetched resp ∧ 200 ≤ status resp ≤ 299 ∧
    status (handleJavaScriptAssets_response c up) = status resp ∧
    headers (handleJavaScriptAssets_response c up) =
      [ ("Access-Control-Allow-Origin", "*");
        ("Access-Control-Allow-Methods", "GET, HEAD, POST, PUT, OPTIONS");
        ("Access-Control-Allow-Headers", "Content-Type, Authorization");
        ("Content-Type", "application/javascript");
        ("Cache-Control", "public, max-age=31536000") ] ∧
    (status resp = 204 ∨ status resp = 205 →
     body (handleJavaScriptAssets_response c up) = None) ∧
    (status resp ≠ 204 → status resp ≠ 205 →
     ∀ text,
       body resp = Some text →
       Str.includes text "www.notion.so" = false →
       Str.includes text "notion.so" = false →
       Str.includes text "faeton.notion.site" = false →
       body (handleJavaScriptAssets_response c up) = Some text).
Proof.
  destruct up as [|resp]; [left; by split; [|left]|].
  unfold handleJavaScriptAssets_response.
  destruct (response_ok resp) eqn:Hok; simpl.
  2: { left. split; [done|]. right. exists resp. split; [done|]. by left. }
  assert (200 ≤ status resp ≤ 299) as Hrange.
  { unfold response_ok in Hok. apply andb_prop in Hok as [H1 H2]. lia. }
  assert (null_body_status (status resp) =
          bool_decide (status resp = 204 ∨ status resp = 205)) as Hnull.
  { unfold null_body_status.
    destruct (Z.eqb_spec (status resp) 101) as [E|_]; [lia|].
    destruct (Z.eqb_spec (status resp) 304) as [E|_]; [lia|].
    destruct (Z.eqb_spec (status resp) 204) as [E|N204];
      [by rewrite bool_decide_eq_true_2 by (by left)|].
    destruct (Z.eqb_spec (status resp) 205) as [E|N205];
      [by rewrite bool_decide_eq_true_2 by (by right)|].
    rewrite bool_decide_eq_false_2; [done|]. by intros [?|?]. }
  unfold Response_new_text. rewrite Hnull.
  case_bool_decide as Hcode.
  - destruct (String.eqb_spec
                (rewrite_asset (MY_DOMAIN c) (default "" (body resp))) "")
      as [E|Hne].
    + right. exists resp. do 4 (split; [done|]). split; [done|].
      intros N204 N205. by destruct Hcode.
    + left. split; [done|]. right. exists resp. split; [done|]. by right.
  - right. exists resp. do 4 (split; [done|]). split; [done|].
    intros _ _ text -> H1 H2 H3. simpl. by rewrite rewrite_asset_absent.
Qed.

(** An upstream 204, which has no body, is answered 204. *)
Example script_without_content :
  handleJavaScriptAssets_response Example.ex_com
    (Fetched {| status := 204; headers := []; body := None |}) =
  {| status := 204;
     headers := corsHeaders ++
                [ ("Content-Type", "application/javascript");
                  ("Cache-Control", "public, max-age=31536000") ];
     body := None |}.
Proof. reflexivity. Qed.

Example script_references_are_rewritten :
  rewrite_asset "ex.com"
    "fetch('https://www.notion.so/api');open('https://faeton.notion.site/x');a='notion.so'" =
  "fetch('https://ex.com/api');open('https://ex.com/x');a='ex.com'".
Proof. reflexivity. Qed.

(** ** Meta tags *)

Lemma header_truthy_default (v : option string) :
  header_truthy v = true → Some (default "" v) = v.
Proof. by destruct v. Qed.

Lemma named_one_of_ext (l : list string) (e1 e : element) :
  (∀ name, name ≠ "content" → getAttribute e1 name = getAttribute e name) →
  named_one_of l e1 = named_one_of l e.
Proof. intros H. unfold named_one_of. by rewrite !H. Qed.

Lemma content_step (b : bool) (v : string) (e : element) :
  let e1 := if b then setAttribute e "content" v else e in
  tagName e1 = tagName e ∧ innerContent e1 = innerContent e ∧
  removed e1 = removed e ∧
  (∀ name, name ≠ "content" → getAttribute e1 name = getAttribute e name) ∧
  getAttribute e1 "content" = if b then Some v else getAttribute e "content".
Proof.
  destruct b; simpl; [|done]. repeat split; [|].
  - intros name H. unfold getAttribute, setAttribute. simpl.
    by rewrite lookup_insert_ne.
  - unfold getAttribute, setAttribute. simpl. by rewrite lookup_insert_eq.
Qed.

(** The handler as a sequence of five conditional updates. *)
Lemma MetaTagEnhancer_element_steps (c : config) (e : element) :
  let title := default "" (PAGE_TITLE c) in
  let description := default "" (PAGE_DESCRIPTION c) in
  let e0 := if header_truthy (PAGE_TITLE c) && String.eqb (tagName e) "title"
            then setInnerContent e title else e in
  let e1 := if header_truthy (PAGE_TITLE c) &&
               named_one_of ["og:title"; "twitter:title"] e0
            then setAttribute e0 "content" title else e0 in
  let e2 := if header_truthy (PAGE_DESCRIPTION c) &&
               named_one_of ["description"; "og:description"; "twitter:description"] e1
            then setAttribute e1 "content" description else e1 in
  let e3 := if named_one_of ["og:url"; "twitter:url"] e2
            then setAttribute e2 "content" ("https://" +:+ MY_DOMAIN c) else e2 in
  MetaTagEnhancer_element c e =
    if bool_decide (getAttribute e3 "name" = Some "apple-itunes-app")
    then remove e3 else e3.
Proof.
  intros title description e0 e1 e2 e3.
  unfold MetaTagEnhancer_element. fold title description.
  assert (∀ x : element,
    match getAttribute x "name" with
    | Some n => String.eqb n "apple-itunes-app"
    | None => false
    end = bool_decide (getAttribute x "name" = Some "apple-itunes-app")) as Happle.
  { intros x. destruct (getAttribute x "name") as [n|]; [|done].
    destruct (String.eqb_spec n "apple-itunes-app") as [->|Hn].
    - by rewrite bool_decide_eq_true_2.
    - rewrite bool_decide_eq_false_2; [done|]. by intros [= ->]. }
  rewrite Happle. subst e3 e2 e1 e0. unfold named_one_of.
  destruct (header_truthy (PAGE_TITLE c)); simpl;
    destruct (header_truthy (PAGE_DESCRIPTION c)); simpl;
    rewrite ?(orb_comm (includes_value _ (getAttribute _ "name"))); reflexivity.
Qed.

(** X13.  What the meta tag enhancer does to a [title] or [meta] element.
    The tag and every attribute but [content] stay as they are.  The
    attribute [content] becomes the URL of the domain on URL metadata,
    else the configured description on description metadata, else the
    configured title on title metadata, and stays as it is on any other
    element.  The text of a [title] element becomes the configured title,
    if there is one, and the element named [apple-itunes-app] is removed. *)
Theorem meta_tags_after_enhancement (c : config) (e : element) :
  let e' := MetaTagEnhancer_element c e in
  tagName e' = tagName e ∧
  (∀ name, name ≠ "content" → getAttribute e' name = getAttribute e name) ∧
  getAttribute e' "content" = meta_content c e ∧
  innerContent e' =
    (if header_truthy (PAGE_TITLE c) && String.eqb (tagName e) "title"
     then PAGE_TITLE c else innerContent e) ∧
  removed e' =
    removed e || bool_decide (getAttribute e "name" = Some "apple-itunes-app").
Proof.
  intros e'. subst e'. rewrite MetaTagEnhancer_element_steps.
  set (title := default "" (PAGE_TITLE c)).
  set (description := default "" (PAGE_DESCRIPTION c)).
  set (e0 := if header_truthy (PAGE_TITLE c) && String.eqb (tagName e) "title"
             then setInnerContent e title else e).
  assert (tagName e0 = tagName e ∧ attributes e0 = attributes e ∧
          removed e0 = removed e ∧
          innerContent e0 =
            if header_truthy (PAGE_TITLE c) && String.eqb (tagName e) "title"
            then PAGE_TITLE c else innerContent e) as (T0 & A0 & R0 & I0).
  { subst e0. destruct (header_truthy (PAGE_TITLE c)) eqn:HT; simpl; [|done].
    destruct (String.eqb (tagName e) "title"); simpl; [|done].
    repeat split. by apply header_truthy_default. }
  assert (∀ name, getAttribute e0 name = getAttribute e name) as G0.
  { intros name. unfold getAttribute. by rewrite A0. }
  destruct (content_step
    (header_truthy (PAGE_TITLE c) && named_one_of ["og:title"; "twitter:title"] e0)
    title e0) as (T1 & I1 & R1 & G1 & K1).
  set (e1 := if header_truthy (PAGE_TITLE c) &&
                named_one_of ["og:title"; "twitter:title"] e0
             then setAttribute e0 "content" title else e0) in *.
  destruct (content_step
    (header_truthy (PAGE_DESCRIPTION c) &&
     named_one_of ["description"; "og:description"; "twitter:description"] e1)
    description e1) as (T2 & I2 & R2 & G2 & K2).
  set (e2 := if header_truthy (PAGE_DESCRIPTION c) &&
                named_one_of ["description"; "og:description"; "twitter:description"] e1
             then setAttribute e1 "content" description else e1) in *.
  destruct (content_step (named_one_of ["og:url"; "twitter:url"] e2)
    ("https://" +:+ MY_DOMAIN c) e2) as (T3 & I3 & R3 & G3 & K3).
  set (e3 := if named_one_of ["og:url"; "twitter:url"] e2
             then setAttribute e2 "content" ("https://" +:+ MY_DOMAIN c) else e2) in *.
  assert (∀ name, name ≠ "content" → getAttribute e3 name = getAttribute e name) as G.
  { intros name H. by rewrite G3, G2, G1, G0. }
  assert (∀ l, named_one_of l e0 = named_one_of l e) as N0.
  { intros l. apply named_one_of_ext. intros name _. apply G0. }
  assert (∀ l, named_one_of l e1 = named_one_of l e) as N1.
  { intros l. apply named_one_of_ext. intros name H. by rewrite G1, G0. }
  assert (∀ l, named_one_of l e2 = named_one_of l e) as N2.
  { intros l. apply named_one_of_ext. intros name H. by rewrite G2, G1, G0. }
  assert (getAttribute e3 "content" = meta_content c e) as K.
  { rewrite K3, K2, K1, N2, N1, N0, G0. unfold meta_content.
    destruct (named_one_of ["og:url"; "twitter:url"] e); [done|].
    destruct (header_truthy (PAGE_DESCRIPTION c)) eqn:HD; simpl.
    - destruct (named_one_of ["description"; "og:description"; "twitter:description"] e).
      + by apply header_truthy_default.
      + destruct (header_truthy (PAGE_TITLE c)) eqn:HT; simpl; [|done].
        destruct (named_one_of ["og:title"; "twitter:title"] e); [|done].
        by apply header_truthy_default.
    - destruct (header_truthy (PAGE_TITLE c)) eqn:HT; simpl; [|done].
      destruct (named_one_of ["og:title"; "twitter:title"] e); [|done].
      by apply header_truthy_default. }
  rewrite (G "name") by done.
  destruct (bool_decide (getAttribute e "name" = Some "apple-itunes-app")); simpl.
  - split; [by rewrite T3, T2, T1|]. split; [exact G|]. split; [exact K|].
    split; [by rewrite I3, I2, I1|]. by rewrite orb_true_r.
  - split; [by rewrite T3, T2, T1|]. split; [exact G|]. split; [exact K|].
    split; [by rewrite I3, I2, I1|]. by rewrite R3, R2, R1, R0, orb_false_r.
Qed.

(** ** The slugs in the address bar *)

Lemma slug_path_eq (slug : string) : slug_path slug = "/" +:+ slug.
Proof. by destruct slug. Qed.

Lemma length_append (s t : string) :
  String.length (s +:+ t) = (String.length s + String.length t)%nat.
Proof.
  induction s as [|a s IH]; [by destruct t|].
  rewrite append_cons. simpl. by rewrite IH.
Qed.

Lemma drop_chars_append (s t : string) : drop_chars (String.length s) (s +:+ t) = t.
Proof.
  induction s as [|a s IH]; [by destruct t|].
  rewrite append_cons. simpl. exact IH.
Qed.

Lemma length_drop_chars (n : nat) (s : string) :
  String.length (drop_chars n s) = (String.length s - n)%nat.
Proof.
  revert s. induction n as [|n IH]; intros s; simpl; [lia|].
  destruct s as [|a s]; simpl; [done|]. apply IH.
Qed.

Lemma slice_last32_append (pre p : string) :
  String.length p = 32%nat → slice_last32 (pre +:+ p) = p.
Proof.
  intros H. unfold slice_last32. rewrite length_append, H.
  replace (String.length pre + 32 - 32)%nat with (String.length pre) by lia.
  apply drop_chars_append.
Qed.

Lemma slice_last32_cases (s : string) :
  slice_last32 s = s ∨ String.length (slice_last32 s) = 32%nat.
Proof.
  unfold slice_last32.
  destruct (decide (String.length s ≤ 32)%nat) as [H|H].
  - left. by replace (String.length s - 32)%nat with 0%nat by lia.
  - right. rewrite length_drop_chars. lia.
Qed.

Lemma own_filter_proto (o : jsobj) (k : string) :
  k ≠ "__proto__" →
  own (List.filter (λ kv, negb (String.eqb kv.1 "__proto__")) o) k = own o k.
Proof.
  intros Hk. induction o as [|[k' v] o IH]; [done|]. simpl.
  destruct (String.eqb_spec k' "__proto__") as [->|Hk']; simpl.
  - apply String.eqb_neq in Hk. by rewrite Hk.
  - by rewrite IH.
Qed.

(** The read [PAGE_TO_SLUG[p]] in the script of a processed configuration,
    for a name [p] that is not [__proto__]. *)
Lemma embedded_PAGE_TO_SLUG (domain : string) (raw : raw_config) (p : string) :
  p ≠ "__proto__" →
  t_PAGE_TO_SLUG (embedded_tables (processConfigurationObject domain raw)) !! p =
    last_slug_of (valid_entries (default [] (raw_SLUG_TO_PAGE raw))) p.
Proof.
  intros Hp. destruct (processed_fields_default domain raw) as (_ & _ & Hm).
  unfold embedded_tables. cbn [t_PAGE_TO_SLUG].
  rewrite lookup_delete_ne by done. rewrite Hm, foldl_assign_lookup.
  apply String.eqb_neq in Hp. rewrite Hp.
  by destruct (last_slug_of _ p).
Qed.

Lemma pattern_not_proto (p : string) :
  String.length p = 32%nat → p ≠ "__proto__".
Proof. by intros H ->. Qed.

(** The slug that the script finds for a page id with one slug. *)
Lemma read_slug_of_page (domain : string) (raw : raw_config) (o : jsobj) (s p : string) :
  raw_SLUG_TO_PAGE raw = Some o → NoDup o.*1 →
  own o s = Some (JStr p) → notionPageIdPattern_test p = true →
  (∀ s', own o s' = Some (JStr p) → s' = s) →
  read_slug (embedded_tables (processConfigurationObject domain raw)) p = Some s.
Proof.
  intros Ho Hnd Hs Hp Huniq. unfold read_slug.
  pose proof (pattern_length _ Hp) as Hlen.
  rewrite embedded_PAGE_TO_SLUG by by apply pattern_not_proto.
  rewrite Ho. simpl.
  assert ((s, p) ∈ valid_entries o) as Hin.
  { apply valid_entries_own; [done|]. split; [done|]. by intros ->. }
  destruct (last_slug_of_is_Some (valid_entries o) p) as [s' Hs'].
  { apply list_elem_of_fmap. by exists (s, p). }
  rewrite Hs'. f_equal. apply Huniq.
  apply last_slug_of_elem in Hs'. by apply valid_entries_own in Hs' as [? _].
Qed.

Lemma updateUrlSlug_to_slug
    (t : tables) (replaceState : string → string → string → string)
    (pre s p : string) :
  String.length p = 32%nat → read_slug t p = Some s →
  replaceState "" ("/" +:+ s) (pre +:+ p) = "/" +:+ s →
  updateUrlSlug t replaceState (pre +:+ p) = "/" +:+ s.
Proof.
  intros Hlen Hread Hrs. unfold updateUrlSlug, getCurrentPageId.
  rewrite slice_last32_append by done. rewrite Hread. simpl.
  rewrite slug_path_eq.
  destruct (String.eqb_spec (pre +:+ p) ("/" +:+ s)) as [E|E]; simpl; done.
Qed.

(** X14.  A slug and back.  For a slug that is not empty, whose page is a
    32-digit id with no other slug, the slug handler redirects the slug's
    path to the path of the page id on the configured domain; and on any
    path that ends with that id, the script's [updateUrlSlug], run when
    the page starts, puts the slug's path back in the address bar. *)
Theorem slug_is_restored_after_redirect
    (URL_pathname : string → string) (u : url) (domain : string) (raw : raw_config)
    (o : jsobj) (s p : string) :
  raw_SLUG_TO_PAGE raw = Some o → NoDup o.*1 →
  pathname u = "/" +:+ s → s ≠ "" →
  own o s = Some (JStr p) → notionPageIdPattern_test p = true →
  (∀ s', own o s' = Some (JStr p) → s' = s) →
  URL_pathname (pathname u) = pathname u →
  let c := processConfigurationObject domain raw in
  ∃ location,
    handleSlugRedirection u c = inr (Some (Response_redirect location 301)) ∧
    location_path c location = Some ("/" +:+ p) ∧
    ∀ pre,
      updateUrlSlug (embedded_tables c) (originalReplaceState URL_pathname)
        (pre +:+ p) = pathname u.
Proof.
  intros Ho Hnd Hu Hne Hs Hp Huniq Hurl c.
  exists ("https://" +:+ domain +:+ "/" +:+ p). split; [|split].
  - assert (Str.slice1 (pathname u) = s) as Hsl by (by rewrite Hu).
    rewrite (handleSlugRedirection_own u c o (JStr p)); [|done|by rewrite Hsl].
    rewrite Hsl. apply String.eqb_neq in Hne. rewrite Hne.
    assert (truthy (JStr p) = true) as ->; [|done].
    simpl. destruct p; [done|done].
  - unfold location_path. simpl MY_DOMAIN.
    rewrite <- (strip_prefix_app ("https://" +:+ domain) ("/" +:+ p)).
    f_equal.
  - intros pre. rewrite Hu. apply updateUrlSlug_to_slug.
    + by apply pattern_length.
    + by apply (read_slug_of_page domain raw o).
    + unfold originalReplaceState. by rewrite <- Hu.
Qed.

Lemma slug_is_restored_after_redirect_witness :
  let c := processConfigurationObject "ex.com"
             (Example.raw_of (Some (JSON_object
                [("", JStr Example.home_id); ("about", JStr Example.about_id)]))) in
  ∃ location,
    handleSlugRedirection
      {| protocol := "https:"; hostname := "ex.com"; pathname := "/about";
         search := "" |} c =
      inr (Some (Response_redirect location 301)) ∧
    location_path c location = Some ("/" +:+ Example.about_id) ∧
    ∀ pre,
      updateUrlSlug (embedded_tables c) (originalReplaceState (λ text, text))
        (pre +:+ Example.about_id) = "/about".
Proof.
  apply (slug_is_restored_after_redirect (λ text, text)
           {| protocol := "https:"; hostname := "ex.com"; pathname := "/about";
              search := "" |} "ex.com"
           (Example.raw_of (Some (JSON_object
              [("", JStr Example.home_id); ("about", JStr Example.about_id)])))
           (JSON_object [("", JStr Example.home_id);
                         ("about", JStr Example.about_id)])
           "about" Example.about_id);
    try reflexivity; try discriminate.
  - apply JSON_object_NoDup.
  - intros s'.
    change (JSON_object _)
      with [("", JStr Example.home_id); ("about", JStr Example.about_id)].
    simpl. destruct (String.eqb_spec s' ""); [discriminate|].
    destruct (String.eqb_spec s' "about"); [done|discriminate].
Defined.

Lemma slice_last32_of_path (path : string) :
  Str.startsWith path "/" = true →
  slice_last32 path ≠ "" ∧ slice_last32 path ≠ "__proto__".
Proof.
  intros H. destruct (slice_last32_cases path) as [->|Hlen].
  - destruct path as [|a path]; [done|]. unfold Str.startsWith in H.
    cbn [String.prefix] in H. destruct (ascii_dec "/" a) as [<-|]; [|done]. done.
  - split; intros E; rewrite E in Hlen; simpl in Hlen; lia.
Qed.

(** X15.  What the script's [history.pushState] records.  For a URL whose
    path ends with a page id of the configuration, the URL is replaced by
    the path of a slug of that page; for any other URL, and for an empty
    one, the call is passed on as it is.  No call is turned into
    [/undefined]. *)
Theorem pushed_pages_become_slugs
    (URL_pathname : string → string) (domain : string) (raw : raw_config) (url : string) :
  Str.startsWith (URL_pathname url) "/" = true →
  let c := processConfigurationObject domain raw in
  let o := default [] (raw_SLUG_TO_PAGE raw) in
  let pageId := slice_last32 (URL_pathname url) in
  match pushState URL_pathname (embedded_tables c) url with
  | Some path => url ≠ "" ∧ ∃ s, (s, JStr pageId) ∈ o ∧ path = "/" +:+ s
  | None => url = "" ∨ ∀ s, (s, JStr pageId) ∉ o
  end.
Proof.
  intros Hpath c o pageId.
  destruct (slice_last32_of_path _ Hpath) as [Hne Hproto]. fold pageId in Hne, Hproto.
  destruct (processed_fields_default domain raw) as (_ & Hpages & _).
  fold o c in Hpages.
  unfold pushState. destruct (String.eqb_spec url "") as [->|Hurl]; [by left|].
  fold pageId. change (t_pages (embedded_tables c)) with (pages c). rewrite Hpages.
  case_bool_decide as Hin.
  - split; [done|]. unfold read_slug, c.
    rewrite embedded_PAGE_TO_SLUG by done. fold o.
    destruct (last_slug_of_is_Some _ _ Hin) as [s Hs]. rewrite Hs.
    exists s. split; [|apply slug_path_eq].
    apply last_slug_of_elem in Hs. by apply valid_entries_elem in Hs as [? _].
  - right. intros s Hs. apply Hin. apply list_elem_of_fmap. exists (s, pageId).
    split; [done|]. by apply valid_entries_elem.
Qed.

Lemma pushed_pages_become_slugs_witness :
  let c := processConfigurationObject "ex.com"
             (Example.raw_of (Some (JSON_object
                [("", JStr Example.home_id); ("about", JStr Example.about_id)]))) in
  match pushState (λ text, text) (embedded_tables c)
          ("/About-me-" +:+ Example.about_id) with
  | Some path =>
      "/About-me-" +:+ Example.about_id ≠ "" ∧
      ∃ s, (s, JStr (slice_last32 ("/About-me-" +:+ Example.about_id))) ∈
             JSON_object [("", JStr Example.home_id); ("about", JStr Example.about_id)] ∧
           path = "/" +:+ s
  | None =>
      "/About-me-" +:+ Example.about_id = "" ∨
      ∀ s, (s, JStr (slice_last32 ("/About-me-" +:+ Example.about_id))) ∉
             JSON_object [("", JStr Example.home_id); ("about", JStr Example.about_id)]
  end.
Proof.
  apply (pushed_pages_become_slugs (λ text, text) "ex.com"
           (Example.raw_of (Some (JSON_object
              [("", JStr Example.home_id); ("about", JStr Example.about_id)])))
           ("/About-me-" +:+ Example.about_id)).
  reflexivity.
Defined.

Lemma slugs_of_processed (domain : string) (raw : raw_config) (o : jsobj) (k : string) :
  raw_SLUG_TO_PAGE raw = Some o → NoDup o.*1 →
  k ∈ slugs (processConfigurationObject domain raw) ↔
  ∃ q, own o k = Some (JStr q) ∧ q ≠ "".
Proof.
  intros Ho Hnd. destruct (processed_fields domain raw o Ho) as (-> & _ & _).
  rewrite list_elem_of_fmap. split.
  - intros ([k' q] & -> & Hin). exists q. by apply valid_entries_own.
  - intros (q & Hq). exists (k, q). split; [done|]. by apply valid_entries_own.
Qed.

(** X16.  Going back or forward.  Take a slug whose page is a 32-digit id
    with no other slug, the id being no slug itself.  When the browser
    returns to the slug's path, the script's [onpopstate] moves to the
    path of the page id and back, and the slug's path is in the address
    bar afterwards; when the browser returns to any other path that ends
    with the page id and is no slug's path, the slug's path replaces it.
    (No handler was installed before, and the URL parser leaves the two
    paths as they are written.) *)
Theorem popstate_settles_on_the_slug
    (URL_pathname : string → string) (domain : string) (raw : raw_config)
    (o : jsobj) (s p : string) :
  raw_SLUG_TO_PAGE raw = Some o → NoDup o.*1 →
  own o s = Some (JStr p) → notionPageIdPattern_test p = true →
  (∀ s', own o s' = Some (JStr p) → s' = s) →
  own o p = None → s ≠ "__proto__" →
  URL_pathname ("/" +:+ s) = "/" +:+ s → URL_pathname ("/" +:+ p) = "/" +:+ p →
  let t := embedded_tables (processConfigurationObject domain raw) in
  onpopstate URL_pathname t None ("/" +:+ s) = "/" +:+ s ∧
  ∀ pre, own o (Str.slice1 (pre +:+ p)) = None →
         onpopstate URL_pathname t None (pre +:+ p) = "/" +:+ s.
Proof.
  intros Ho Hnd Hs Hp Huniq Hpo Hproto Hus Hup t.
  pose proof (pattern_length _ Hp) as Hlen.
  pose proof (read_slug_of_page domain raw o s p Ho Hnd Hs Hp Huniq) as Hread.
  fold t in Hread.
  assert (∀ k, k ∈ t_slugs t ↔ ∃ q, own o k = Some (JStr q) ∧ q ≠ "") as Hslugs.
  { intros k. by apply slugs_of_processed. }
  assert (∀ pre, own o (Str.slice1 (pre +:+ p)) = None →
            updateUrlSlug t (replaceState URL_pathname t) (pre +:+ p) = "/" +:+ s)
    as Hupdate.
  { intros pre Hnone. apply updateUrlSlug_to_slug; [done..|].
    unfold replaceState, getCurrentSlug. rewrite bool_decide_eq_false_2; [done|].
    intros (q & Hq & _)%Hslugs. by rewrite Hnone in Hq. }
  split.
  - unfold onpopstate, getCurrentSlug. change (Str.slice1 ("/" +:+ s)) with s.
    rewrite bool_decide_eq_true_2.
    2: { apply Hslugs. exists p. split; [done|]. by intros ->. }
    assert (Get (t_SLUG_TO_PAGE t) s = Own (JStr p)) as ->.
    { unfold Get, t, embedded_tables. cbn [t_SLUG_TO_PAGE SLUG_TO_PAGE processConfigurationObject].
      rewrite Ho. simpl default. by rewrite own_filter_proto, Hs. }
    assert (property_truthy (Own (JStr p)) = true) as ->.
    { simpl. by destruct p. }
    assert (replaceState URL_pathname t "bypass"
              ("/" +:+ property_text (Own (JStr p))) ("/" +:+ s) = "/" +:+ p) as ->.
    { unfold replaceState, originalReplaceState. exact Hup. }
    apply (Hupdate "/"). exact Hpo.
  - intros pre Hnone. unfold onpopstate, getCurrentSlug.
    rewrite bool_decide_eq_false_2.
    2: { intros (q & Hq & _)%Hslugs. by rewrite Hnone in Hq. }
    by apply Hupdate.
Qed.

Lemma popstate_settles_on_the_slug_witness :
  let t := embedded_tables (processConfigurationObject "ex.com"
             (Example.raw_of (Some (JSON_object
                [("", JStr Example.home_id); ("about", JStr Example.about_id)])))) in
  onpopstate (λ text, text) t None "/about" = "/about" ∧
  ∀ pre, own (JSON_object [("", JStr Example.home_id); ("about", JStr Example.about_id)])
           (Str.slice1 (pre +:+ Example.about_id)) = None →
         onpopstate (λ text, text) t None (pre +:+ Example.about_id) = "/about".
Proof.
  apply (popstate_settles_on_the_slug (λ text, text) "ex.com"
           (Example.raw_of (Some (JSON_object
              [("", JStr Example.home_id); ("about", JStr Example.about_id)])))
           (JSON_object [("", JStr Example.home_id); ("about", JStr Example.about_id)])
           "about" Example.about_id);
    try reflexivity; try discriminate.
  - apply JSON_object_NoDup.
  - intros s'.
    change (JSON_object _)
      with [("", JStr Example.home_id); ("about", JStr Example.about_id)].
    simpl. destruct (String.eqb_spec s' ""); [discriminate|].
    destruct (String.eqb_spec s' "about"); [done|discriminate].
Defined.

(** * Reading the sitemap back *)

Lemma append_nil (s : string) : "" +:+ s = s.
Proof. reflexivity. Qed.

Lemma append_nil_r (s : string) : s +:+ "" = s.
Proof. induction s as [|a s IH]; [done|]. by rewrite append_cons, IH. Qed.

Lemma rev_app_append (s t acc : string) :
  String.rev_app (s +:+ t) acc = String.rev_app t (String.rev_app s acc).
Proof.
  revert acc. induction s as [|a s IH]; intros acc; [done|].
  rewrite append_cons. simpl. apply IH.
Qed.

Lemma rev_app_acc (t acc : string) :
  String.rev_app t acc = String.rev_app t "" +:+ acc.
Proof.
  revert acc. induction t as [|a t IH]; intros acc; [done|].
  simpl. rewrite (IH (String a acc)), (IH (String a "")).
  by rewrite append_assoc.
Qed.

Lemma prefix_append (p s : string) : String.prefix p (p +:+ s) = true.
Proof.
  induction p as [|a p IH]; [by destruct s|].
  rewrite append_cons. cbn [String.prefix].
  by destruct (ascii_dec a a).
Qed.

Lemma endsWith_append (s p : string) : Str.endsWith (s +:+ p) p = true.
Proof.
  unfold Str.endsWith, String.rev.
  rewrite rev_app_append, (rev_app_acc p (String.rev_app s "")).
  apply prefix_append.
Qed.

Lemma xml_plain_append (s t : string) :
  xml_plain s = true → xml_plain t = true → xml_plain (s +:+ t) = true.
Proof.
  intros Hs Ht. induction s as [|a s IH]; [done|].
  rewrite append_cons. unfold xml_plain in *. cbn [Str.forall_chars] in *.
  apply andb_prop in Hs as [Ha Hs]. rewrite Ha. by apply IH.
Qed.

Lemma xml_plain_cons (a : ascii) (s : string) :
  xml_plain (String a s) = true → Ascii.eqb "<" a = false ∧ xml_plain s = true.
Proof.
  unfold xml_plain. cbn [Str.forall_chars].
  intros [Ha Hs]%andb_prop. split; [|done].
  rewrite Ascii.eqb_sym. by destruct (Ascii.eqb a "<").
Qed.

(** No element begins inside a text without markup. *)
Lemma elements_plain (open' close t s : string) :
  xml_plain t = true →
  elements (String "<" open') close (t +:+ s) = elements (String "<" open') close s.
Proof.
  intros H. induction t as [|a t IH]; [done|].
  apply xml_plain_cons in H as [Ha Ht].
  rewrite append_cons. cbn [elements starts]. rewrite Ha. simpl. by apply IH.
Qed.

Lemma text_before_plain (stop' t s : string) :
  xml_plain t = true →
  text_before (String "<" stop') (t +:+ s) =
  t +:+ text_before (String "<" stop') s.
Proof.
  intros H. induction t as [|a t IH]; [done|].
  apply xml_plain_cons in H as [Ha Ht].
  rewrite !append_cons. cbn [text_before starts]. rewrite Ha. simpl.
  by rewrite IH.
Qed.

Ltac spell :=
  repeat (rewrite append_cons || rewrite append_nil);
  cbn [elements starts text_before drop_chars String.length
       Ascii.eqb Bool.eqb andb].

(** The [url] element that the reader finds in one entry of the sitemap. *)
Lemma url_element_of_entry (location rest : string) :
  xml_plain location = true →
  elements "<url>" "</url>"
    ("<url><loc>" +:+ location +:+
     "</loc><changefreq>weekly</changefreq><priority>0.8</priority></url>" +:+ rest) =
  ("<loc>" +:+ location +:+
   "</loc><changefreq>weekly</changefreq><priority>0.8</priority>") ::
  elements "<url>" "</url>" rest.
Proof.
  intros H. spell.
  rewrite text_before_plain, elements_plain by done. spell.
  reflexivity.
Qed.

Lemma loc_element_of_entry (location rest : string) :
  xml_plain location = true →
  elements "<loc>" "</loc>"
    ("<url><loc>" +:+ location +:+
     "</loc><changefreq>weekly</changefreq><priority>0.8</priority></url>" +:+ rest) =
  location :: elements "<loc>" "</loc>" rest.
Proof.
  intros H. spell.
  rewrite text_before_plain, elements_plain by done. spell.
  by rewrite append_nil_r.
Qed.

Lemma sitemap_loc_plain (domain slug : string) :
  xml_plain domain = true → xml_plain slug = true →
  xml_plain (sitemap_loc domain slug) = true.
Proof.
  intros Hd Hs. unfold sitemap_loc.
  destruct (String.eqb slug "");
    repeat (apply xml_plain_append; [done|]); done.
Qed.

(** The elements that the reader finds in the entries of a list of
    slugs, joined by line breaks and followed by [rest]. *)
Lemma elements_of_entries (domain : string) (l : list string) (rest : string) :
  xml_plain domain = true → Forall (λ slug, xml_plain slug = true) l →
  elements "<url>" "</url>"
    (Str.join Str.newline (map (sitemap_entry domain) l) +:+ rest) =
  map (λ slug, "<loc>" +:+ sitemap_loc domain slug +:+
               "</loc><changefreq>weekly</changefreq><priority>0.8</priority>") l ++
  elements "<url>" "</url>" rest ∧
  elements "<loc>" "</loc>"
    (Str.join Str.newline (map (sitemap_entry domain) l) +:+ rest) =
  map (sitemap_loc domain) l ++ elements "<loc>" "</loc>" rest.
Proof.
  intros Hd Hl. induction Hl as [|slug l Hslug Hl IH]; [done|].
  pose proof (sitemap_loc_plain domain slug Hd Hslug) as Hloc.
  assert (∀ tail,
    (sitemap_entry domain slug +:+ tail) =
    "<url><loc>" +:+ sitemap_loc domain slug +:+
    "</loc><changefreq>weekly</changefreq><priority>0.8</priority></url>" +:+ tail)
    as Hentry.
  { intros tail. unfold sitemap_entry. by rewrite !append_assoc. }
  unfold Str.join in *. destruct l as [|slug' l].
  - cbn [map String.concat]. rewrite Hentry.
    by rewrite url_element_of_entry, loc_element_of_entry.
  - cbn [map String.concat] in *. rewrite !append_assoc, Hentry.
    rewrite url_element_of_entry, loc_element_of_entry by done.
    rewrite !(elements_plain _ _ Str.newline) by done.
    destruct IH as [-> ->]. done.
Qed.

Lemma elements_after_head (rest : string) :
  elements "<url>" "</url>" (sitemap_head +:+ rest) =
    elements "<url>" "</url>" rest ∧
  elements "<loc>" "</loc>" (sitemap_head +:+ rest) =
    elements "<loc>" "</loc>" rest.
Proof. unfold sitemap_head, Str.dquote, Str.newline. by spell. Qed.

(** What the reader finds in the sitemap of a configuration without
    markup in its domain and slugs. *)
Lemma elements_of_sitemap (c : config) :
  xml_plain (MY_DOMAIN c) = true →
  Forall (λ slug, xml_plain slug = true) (slugs c) →
  elements "<url>" "</url>" (generateSitemap c) =
    map (λ slug, "<loc>" +:+ sitemap_loc (MY_DOMAIN c) slug +:+
                 "</loc><changefreq>weekly</changefreq><priority>0.8</priority>")
      (slugs c) ∧
  elements "<loc>" "</loc>" (generateSitemap c) =
    map (sitemap_loc (MY_DOMAIN c)) (slugs c).
Proof.
  intros Hd Hl. unfold generateSitemap. cbv zeta.
  destruct (elements_after_head
              (Str.join Str.newline (map (sitemap_entry (MY_DOMAIN c)) (slugs c)) +:+
               sitemap_foot)) as [-> ->].
  destruct (elements_of_entries (MY_DOMAIN c) (slugs c) sitemap_foot Hd Hl)
    as [-> ->].
  change (elements "<url>" "</url>" sitemap_foot) with (@nil string).
  change (elements "<loc>" "</loc>" sitemap_foot) with (@nil string).
  by rewrite !app_nil_r.
Qed.

(** C8, as stated, fails: slugs are written into the document as they
    are, so that one slug that holds markup gives two [url] entries; the
    document is the one of a configuration with two slugs. *)
Lemma markup_in_a_slug_adds_entries :
  let slug :=
    "a</loc><changefreq>weekly</changefreq><priority>0.8</priority></url>" +:+
    Str.newline +:+ "<url><loc>https://ex.com/b" in
  let c := Example.resolved [(slug, JStr Example.home_id)] in
  slugs c = [slug] ∧
  generateSitemap c =
    generateSitemap (Example.resolved [("a", JStr Example.home_id);
                                       ("b", JStr Example.about_id)]) ∧
  elements "<loc>" "</loc>" (generateSitemap c) =
    ["https://ex.com/a"; "https://ex.com/b"].
Proof. repeat split. Qed.

(** C8, amended.  For a configuration whose domain and slugs hold none of
    the characters [<], [>] and [&], the sitemap begins with the XML
    declaration and the opening [urlset] tag, ends with the closing one,
    and holds exactly one [url] element per element of [slugs], in the same
    order: the element of the root slug locates [https://<domain>/], the
    element of any other slug [https://<domain>/<slug>], each with weekly
    change frequency and priority 0.8. *)
Theorem sitemap_one_url_per_slug (c : config) :
  xml_plain (MY_DOMAIN c) = true →
  Forall (λ slug, xml_plain slug = true) (slugs c) →
  let document := generateSitemap c in
  let location slug :=
    if bool_decide (slug = "") then "https://" +:+ MY_DOMAIN c +:+ "/"
    else "https://" +:+ MY_DOMAIN c +:+ "/" +:+ slug in
  Str.startsWith document
    ("<?xml version=" +:+ Str.dquote +:+ "1.0" +:+ Str.dquote +:+
     " encoding=" +:+ Str.dquote +:+ "UTF-8" +:+ Str.dquote +:+ "?>" +:+
     Str.newline +:+
     "<urlset xmlns=" +:+ Str.dquote +:+
     "http://www.sitemaps.org/schemas/sitemap/0.9" +:+ Str.dquote +:+ ">" +:+
     Str.newline) = true ∧
  Str.endsWith document (Str.newline +:+ "</urlset>") = true ∧
  elements "<url>" "</url>" document =
    map (λ slug,
           "<loc>" +:+ location slug +:+
           "</loc><changefreq>weekly</changefreq><priority>0.8</priority>")
      (slugs c) ∧
  elements "<loc>" "</loc>" document = map location (slugs c).
Proof.
  intros Hd Hl document location.
  assert (∀ slug, sitemap_loc (MY_DOMAIN c) slug = location slug) as Hloc.
  { intros slug. unfold sitemap_loc, location.
    destruct (String.eqb_spec slug "") as [->|Hne].
    - by rewrite bool_decide_eq_true_2.
    - by rewrite bool_decide_eq_false_2. }
  destruct (elements_of_sitemap c Hd Hl) as [Hurl Hlocs].
  split; [apply prefix_append|]. split.
  - unfold document, generateSitemap. cbv zeta.
    rewrite <- append_assoc. apply endsWith_append.
  - fold document in Hurl, Hlocs. rewrite Hurl, Hlocs. split.
    + apply map_ext. intros slug. by rewrite Hloc.
    + apply map_ext. intros slug. by rewrite Hloc.
Qed.

Lemma sitemap_one_url_per_slug_witness :
  elements "<url>" "</url>" (generateSitemap Example.ex_com) =
    [ "<loc>https://ex.com/</loc><changefreq>weekly</changefreq><priority>0.8</priority>";
      "<loc>https://ex.com/about</loc><changefreq>weekly</changefreq><priority>0.8</priority>" ] ∧
  elements "<loc>" "</loc>" (generateSitemap Example.ex_com) =
    [ "https://ex.com/"; "https://ex.com/about" ].
Proof.
  apply (sitemap_one_url_per_slug Example.ex_com).
  - reflexivity.
  - repeat constructor.
Defined.

(** X9.  For every configuration object whose domain and slugs hold none
    of the characters [<], [>] and [&], no slug is listed twice, the
    sitemap holds as many locations as there are slugs, and no two of
    them are the same: the sitemap never repeats a URL. *)
Theorem sitemap_never_repeats_a_url
    (domain : string) (raw : raw_config) (members : list (string * jsval)) :
  default [] (raw_SLUG_TO_PAGE raw) = JSON_object members →
  let c := processConfigurationObject domain raw in
  xml_plain domain = true →
  Forall (λ slug, xml_plain slug = true) (slugs c) →
  NoDup (slugs c) ∧
  length (elements "<loc>" "</loc>" (generateSitemap c)) = length (slugs c) ∧
  NoDup (elements "<loc>" "</loc>" (generateSitemap c)).
Proof.
  intros Hraw c Hd Hl.
  destruct (processed_fields_default domain raw) as (Hs & _ & _).
  rewrite Hraw in Hs. fold c in Hs.
  assert (Hnd : NoDup (slugs c)).
  { rewrite Hs. apply valid_entries_keys_NoDup, JSON_object_NoDup. }
  split; [done|].
  destruct (elements_of_sitemap c Hd Hl) as [_ ->].
  split; [by rewrite length_map|].
  pose proof (sitemap_loc_inj (MY_DOMAIN c)) as Hinj.
  by apply (NoDup_fmap_2 (sitemap_loc (MY_DOMAIN c))).
Qed.

Lemma sitemap_never_repeats_a_url_witness :
  NoDup (elements "<loc>" "</loc>" (generateSitemap Example.ex_com)).
Proof.
  apply (sitemap_never_repeats_a_url "ex.com"
           (Example.raw_of
              (Some (JSON_object [("", JStr Example.home_id);
                                  ("about", JStr Example.about_id)])))
           [("", JStr Example.home_id); ("about", JStr Example.about_id)]
           eq_refl).
  - reflexivity.
  - repeat constructor.
Defined.
